(** * VN_Punc: the training / evaluation driver [run_train_punc.py]

    A shallow embedding of [main] of [run_train_punc.py]: the evaluation
    decoding loop, the gradient-accumulated training loop with its
    per-batch checkpoint, and the start-up checks, followed by the
    properties of the driver that the specification states.

    Python integers are [Z]; the label map (a [dict] from int to label name)
    is a [gmap Z string]; the output directory is a [gmap string File];
    the numeric tensors that only the external scoring function looks at are
    abstract. *)

From Stdlib Require Import ZArith Lia List Bool Ascii String.
From stdpp Require Import base option list gmap strings fin_maps.

Local Open Scope string_scope.
Local Open Scope list_scope.
Local Open Scope Z_scope.

(** ** Label map *)

Module LabelMap.

(** [enumerate(l, start)] *)
Fixpoint enumerate {A : Type} (start : Z) (l : list A) : list (Z * A) :=
  match l with
  | [] => []
  | x :: l' => (start, x) :: enumerate (start + 1) l'
  end.

(** [label_map = {i: label for i, label in enumerate(label_list, 1)}] *)
Definition label_map (label_list : list string) : gmap Z string :=
  list_to_map (enumerate 1 label_list).

(** [num_labels = len(label_list) + 1] *)
Definition num_labels (label_list : list string) : Z :=
  Z.of_nat (length label_list) + 1.

(** [len(label_map)] *)
Definition len (label_map : gmap Z string) : Z := Z.of_nat (size label_map).

End LabelMap.

(** ** The evaluation decoding loop (lines 398-410 and 486-498) *)

Module Decode.
Import LabelMap.

(** How the walk over one example's [label_ids] row ends. *)
Inductive row_outcome : Type :=
| RowFlushed (j : nat) (temp_1 temp_2 : list string)
    (* the [break] branch taken at position [j]: both lists are flushed *)
| RowExhausted (temp_1 temp_2 : list string)
    (* the row ran out without [break]: nothing is flushed *)
| RowKeyError (j : nat) (key : Z)
    (* [label_map[label_ids[i][j]]] raised *)
| RowIndexError (j : nat).
    (* [logits[i][j]] raised *)

(** [label_map.get(p, 'PAD')] *)
Definition get_or_pad (label_map : gmap Z string) (p : Z) : string :=
  default "PAD" (label_map !! p).

(** [logits[i][j]] *)
Definition logits_at (logits : list (list Z)) (i j : nat) : option Z :=
  logits !! i ≫= fun row => row !! j.

(** [for j, m in enumerate(label): ...], started at position [j] with the
    part of the row that is still to be visited. *)
Fixpoint walk (label_map : gmap Z string) (logits : list (list Z)) (i : nat)
    (j : nat) (label : list Z) (temp_1 temp_2 : list string) : row_outcome :=
  match label with
  | [] => RowExhausted temp_1 temp_2
  | m :: rest =>
      if (j =? 0)%nat then
        walk label_map logits i (S j) rest temp_1 temp_2
      else if m =? len label_map then
        RowFlushed j temp_1 temp_2
      else
        match label_map !! m with
        | None => RowKeyError j m
        | Some name =>
            match logits_at logits i j with
            | None => RowIndexError j
            | Some p =>
                walk label_map logits i (S j) rest
                  (temp_1 ++ [name]) (temp_2 ++ [get_or_pad label_map p])
            end
        end
  end.

(** The body of [for i, label in enumerate(label_ids)] for one example. *)
Definition eval_row (label_map : gmap Z string) (logits : list (list Z))
    (i : nat) (label : list Z) : row_outcome :=
  walk label_map logits i 0 label [] [].

(** What the decoding of a batch raises. *)
Inductive decode_error : Type :=
| LabelKeyError (i j : nat) (key : Z)
| LogitsIndexError (i j : nat).

(** [for i, label in enumerate(label_ids): ...] over the rows from [i] on,
    threading the flat lists [y_true] and [y_pred]. *)
Fixpoint eval_rows (label_map : gmap Z string) (logits : list (list Z))
    (i : nat) (label_ids : list (list Z)) (y_true y_pred : list string)
    : decode_error + (list string * list string) :=
  match label_ids with
  | [] => inr (y_true, y_pred)
  | label :: rest =>
      match eval_row label_map logits i label with
      | RowFlushed _ temp_1 temp_2 =>
          eval_rows label_map logits (S i) rest (y_true ++ temp_1) (y_pred ++ temp_2)
      | RowExhausted _ _ =>
          eval_rows label_map logits (S i) rest y_true y_pred
      | RowKeyError j k => inl (LabelKeyError i j k)
      | RowIndexError j => inl (LogitsIndexError i j)
      end
  end.

Definition eval_batch (label_map : gmap Z string) (logits label_ids : list (list Z))
    (y_true y_pred : list string) : decode_error + (list string * list string) :=
  eval_rows label_map logits 0 label_ids y_true y_pred.

(** The positions [j .. j + k) of the walk all take the last branch:
    [label] is the part of the row from position [j] on, and [ns] and [ps]
    are the names appended to [temp_1] and [temp_2] there. *)
Definition decoded (label_map : gmap Z string) (logits : list (list Z)) (i : nat)
    (j : nat) (label : list Z) (k : nat) (ns ps : list string) : Prop :=
  length ns = k /\ length ps = k /\
  forall k', (k' < k)%nat ->
    exists m name q,
      label !! k' = Some m /\ m <> len label_map /\ label_map !! m = Some name /\
      ns !! k' = Some name /\
      logits_at logits i (j + k') = Some q /\
      ps !! k' = Some (get_or_pad label_map q).

End Decode.

(** ** The driver [main] *)

Module Driver.
Import LabelMap Decode.

(** The parsed command line, restricted to the arguments that steer the
    control flow.  [num_train_epochs] is [int(args.num_train_epochs)]. *)
Record Args : Type := {
  model_type : string;
  model_arch : string;
  task_name : string;
  do_train : bool;
  do_eval : bool;
  eval_on : string;
  train_batch_size : Z;
  eval_every_epoch : bool;
  num_train_epochs : Z;
  no_cuda : bool;
  local_rank : Z;
  gradient_accumulation_steps : Z;
  fp16 : bool
}.

(** The exceptions [main] raises, one constructor per raising place. *)
Inductive Exn : Type :=
| InvalidGradAccum (k : Z)          (* ValueError, line 164 *)
| NoTrainNoEval                     (* ValueError, line 174 *)
| OutputDirNotEmpty                 (* ValueError, line 177 *)
| TaskNotFound (task : string)      (* ValueError, line 184 *)
| UnknownModelType (t : string)     (* KeyError of MODEL_CLASSES, line 191 *)
| ZeroDivision                      (* len(train_examples) / 0, line 238 *)
| ApexMissing                       (* ImportError, line 263 *)
| BadCheckpoint                     (* torch.load / checkpoint[...] failing *)
| PretrainedNotFound                (* from_pretrained(output_dir), line 433 *)
| EvalOnInvalid                     (* ValueError, lines 358 and 444 *)
| DecodeError (e : decode_error).   (* lines 409-410 and 497-498 *)

(** [str.lower()] on the ASCII letters. *)
Definition lower_ascii (c : ascii) : ascii :=
  let n := nat_of_ascii c in
  if ((65 <=? n) && (n <=? 90))%nat then ascii_of_nat (n + 32) else c.

Fixpoint lower (s : string) : string :=
  match s with
  | EmptyString => EmptyString
  | String c s' => String (lower_ascii c) (lower s')
  end.

(** [processors = {"punctuation_prediction": PuncProcessor}] *)
Definition in_processors (task : string) : bool :=
  String.eqb task "punctuation_prediction".

(** The keys of [MODEL_CLASSES]. *)
Definition in_MODEL_CLASSES (t : string) : bool :=
  String.eqb t "bert" || String.eqb t "electra" || String.eqb t "xlmr".

Section Torch.

(** The external collaborators: the model with its optimizer and scheduler,
    floating-point losses, and the tensors of a batch other than
    [label_ids]. *)
Context {Model Optimizer Scheduler Loss Tensors : Type}.

(** One batch of the data loader. *)
Record Batch : Type := {
  tensors : Tensors;
  label_ids : list (list Z)
}.

(** The scoring function and the numeric operations, used as black boxes. *)
Class Torch : Type := {
  model_loss : Model -> Batch -> Loss;        (* [model(...)] in training mode *)
  loss_mean : Loss -> Loss;                   (* [loss.mean()] *)
  loss_div : Loss -> Z -> Loss;               (* [loss / k] *)
  backward : Model -> Loss -> Model;          (* [backward()] and gradient clipping *)
  loss_zero : Loss;
  loss_add : Loss -> Loss -> Loss;            (* [tr_loss += loss.item()] *)
  optimizer_step : Optimizer -> Model -> Optimizer * Model;
  scheduler_step : Scheduler -> Scheduler;
  zero_grad : Model -> Model;
  (* lines 387-393: the predicted label ids, [logits[i][j]] *)
  model_logits : string -> Model -> Batch -> list (list Z)
}.

Context `{Torch}.

(** A value stored in the checkpoint dictionary. *)
Inductive CkVal : Type :=
| VInt (z : Z)
| VModel (m : Model)
| VOptimizer (o : Optimizer)
| VScheduler (s : Scheduler)
| VLoss (l : Loss).

(** A file of the output directory. *)
Inductive File : Type :=
| FCheckpoint (c : gmap string CkVal)       (* written by [torch.save] *)
| FReport (y_true y_pred : list string)     (* [classification_report(y_true, y_pred, ...)] *)
| FModel (m : Model)                        (* written by [save_pretrained] *)
| FOther.

(** The output directory: [None] when it does not exist. *)
Definition Dir : Type := option (gmap string File).

(** What the process does to the outside world, in order. *)
Inductive Event : Type :=
| EvQueryDevice                  (* lines 152-153 *)
| EvSetDevice                    (* lines 155-156 *)
| EvInitProcessGroup             (* line 159 *)
| EvSeed                         (* lines 169-171 *)
| EvMakeDirs                     (* line 179 *)
| EvFromPretrained               (* tokenizer, config and model, lines 192-231 *)
| EvReadExamples (split : string)
| EvBarrier
| EvTorchLoad                    (* line 284 *)
| EvConvertFeatures (mode : string)
| EvTrainDataLoader (batch_size : Z)   (* line 310 *)
| EvForwardBackward (epoch : Z) (step : nat)
| EvOptimizerStep
| EvSchedulerStep
| EvZeroGrad
| EvTorchSave (c : gmap string CkVal)   (* lines 344-350 *)
| EvInference
| EvWriteReport (name : string)  (* lines 416-419 and 504-507 *)
| EvSavePretrained               (* lines 422-424 *)
| EvLoadFromOutputDir            (* lines 433-434 *)
| EvWriteModelConfig.            (* line 429 *)

(** What does not come from the command line. *)
Record Env : Type := {
  cuda_available : bool;
  device_count : Z;
  rank : Z;                          (* [torch.distributed.get_rank()] *)
  apex_installed : bool;
  label_list : list string;          (* [processor.get_labels()] *)
  pretrained_model : Model;
  new_optimizer : Optimizer;
  new_scheduler : Scheduler;
  (* [DataLoader(train_data, sampler, batch_size)] iterated in an epoch *)
  train_dataloader : Z -> Z -> list Batch;
  dev_dataloader : list Batch;
  test_dataloader : list Batch
}.

(** *** The effect monad: events written, output directory threaded,
    exceptions propagated *)

Definition M (A : Type) : Type := Dir -> list Event * Dir * (Exn + A).

Definition ret {A : Type} (a : A) : M A := fun d => ([], d, inr a).

Definition bind {A B : Type} (m : M A) (f : A -> M B) : M B :=
  fun d =>
    match m d with
    | (ev, d', inl e) => (ev, d', inl e)
    | (ev, d', inr a) =>
        match f a d' with
        | (ev', d'', r) => (ev ++ ev', d'', r)
        end
    end.

Definition raise {A : Type} (e : Exn) : M A := fun d => ([], d, inl e).
Definition emit (e : Event) : M unit := fun d => ([e], d, inr tt).
Definition get_dir : M Dir := fun d => ([], d, inr d).
Definition put_dir (d' : Dir) : M unit := fun _ => ([], d', inr tt).

Notation "x <- m ;; k" := (bind m (fun x => k))
  (at level 100, m at next level, right associativity).
Notation "m ;; k" := (bind m (fun _ => k))
  (at level 100, right associativity).

(** [if c: raise e] *)
Definition raise_if (c : bool) (e : Exn) : M unit :=
  if c then raise e else ret tt.

(** [for x in l: st = body(x, st)], with the index of [enumerate]. *)
Fixpoint for_each {A St : Type} (body : nat -> A -> St -> M St) (i : nat)
    (l : list A) (st : St) : M St :=
  match l with
  | [] => ret st
  | x :: l' => st' <- body i x st ;; for_each body (S i) l' st'
  end.

(** *** The output directory *)

(** [os.path.exists(args.output_dir)] *)
Definition dir_exists (d : Dir) : bool :=
  match d with Some _ => true | None => false end.

(** [os.listdir(args.output_dir)], taken as a truth value *)
Definition listdir (d : Dir) : list string :=
  match d with Some files => (map_to_list files).*1 | None => [] end.

Definition nonempty {A : Type} (l : list A) : bool :=
  match l with [] => false | _ => true end.

(** [os.path.join(args.output_dir, name)] looked up *)
Definition read_file (name : string) (d : Dir) : option File :=
  d ≫= fun files => files !! name.

(** Writing [name] in the output directory, replacing what was there. *)
Definition write_file (name : string) (f : File) : M unit :=
  d <- get_dir ;; put_dir (Some (<[name := f]> (default ∅ d))).

(** [PATH = os.path.join(args.output_dir, 'checkpoint.ckt')] *)
Definition PATH : string := "checkpoint.ckt".

(** *** Training state *)

Record TrainState : Type := {
  model : Model;
  optimizer : Optimizer;
  scheduler : Scheduler;
  tr_loss : Loss;
  global_step : Z;
  nb_tr_steps : Z
}.

(** Lines 151-159. The result is [n_gpu]. *)
Definition setup_device (args : Args) (env : Env) : M Z :=
  if (local_rank args =? -1) || no_cuda args then
    emit EvQueryDevice ;; ret (device_count env)
  else
    emit EvSetDevice ;; emit EvInitProcessGroup ;; ret 1.

(** Lines 163-184: the start-up checks.  The result is the reassigned
    [args.train_batch_size]. *)
Definition preflight (args : Args) : M Z :=
  raise_if (gradient_accumulation_steps args <? 1)
    (InvalidGradAccum (gradient_accumulation_steps args)) ;;
  let train_batch_size' := train_batch_size args / gradient_accumulation_steps args in
  emit EvSeed ;;
  raise_if (negb (do_train args) && negb (do_eval args)) NoTrainNoEval ;;
  d <- get_dir ;;
  raise_if (dir_exists d && nonempty (listdir d) && do_train args) OutputDirNotEmpty ;;
  (if negb (dir_exists d) then emit EvMakeDirs ;; put_dir (Some ∅) else ret tt) ;;
  let task_name := lower (task_name args) in
  raise_if (negb (in_processors task_name)) (TaskNotFound task_name) ;;
  ret train_batch_size'.

(** Lines 186-277: model, training examples, optimizer and scheduler. *)
Definition prepare (args : Args) (env : Env) (train_batch_size' : Z) : M TrainState :=
  raise_if (negb (in_MODEL_CLASSES (model_type args))) (UnknownModelType (model_type args)) ;;
  emit EvFromPretrained ;;
  (if do_train args then
     emit (EvReadExamples "train") ;;
     raise_if (train_batch_size' =? 0) ZeroDivision
   else ret tt) ;;
  (if negb ((local_rank args =? -1) || (local_rank args =? 0)) then emit EvBarrier else ret tt) ;;
  (if local_rank args =? 0 then emit EvBarrier else ret tt) ;;
  raise_if (fp16 args && negb (apex_installed env)) ApexMissing ;;
  ret {| model := pretrained_model env;
         optimizer := new_optimizer env;
         scheduler := new_scheduler env;
         tr_loss := loss_zero;
         global_step := 0;
         nb_tr_steps := 0 |}.

(** Lines 280-289: the checkpoint is loaded when the file exists.  The
    result is the restored state with [start_epoch]. *)
Definition load_checkpoint (st : TrainState) : M (TrainState * Z) :=
  d <- get_dir ;;
  match read_file PATH d with
  | None => ret (st, 0)
  | Some f =>
      emit EvTorchLoad ;;
      match f with
      | FCheckpoint c =>
          match c !! "model_state_dict", c !! "optimizer_state_dict",
                c !! "epoch", c !! "loss", c !! "scheduler" with
          | Some (VModel m), Some (VOptimizer o), Some (VInt e),
            Some (VLoss l), Some (VScheduler s) =>
              ret ({| model := m; optimizer := o; scheduler := s; tr_loss := l;
                      global_step := global_step st;
                      nb_tr_steps := nb_tr_steps st |}, e + 1)
          | _, _, _, _, _ => raise BadCheckpoint
          end
      | _ => raise BadCheckpoint
      end
  end.

(** Lines 344-350: the dictionary given to [torch.save]. *)
Definition checkpoint_dict (epoch : Z) (st : TrainState) : gmap string CkVal :=
  <["epoch" := VInt epoch]>
  (<["model_state_dict" := VModel (model st)]>
  (<["optimizer_state_dict" := VOptimizer (optimizer st)]>
  (<["loss" := VLoss (tr_loss st)]>
  (<["scheduler" := VScheduler (scheduler st)]> ∅)))).

Definition save_checkpoint (epoch : Z) (st : TrainState) : M unit :=
  emit (EvTorchSave (checkpoint_dict epoch st)) ;;
  write_file PATH (FCheckpoint (checkpoint_dict epoch st)).

(** Lines 318-350: one batch of the training loop, up to the checkpoint. *)
Definition train_batch (args : Args) (n_gpu : Z) (epoch : Z) (step : nat)
    (batch : Batch) (st : TrainState) : M TrainState :=
  let loss := model_loss (model st) batch in
  let loss := if 1 <? n_gpu then loss_mean loss else loss in
  let loss := if 1 <? gradient_accumulation_steps args
              then loss_div loss (gradient_accumulation_steps args) else loss in
  emit (EvForwardBackward epoch step) ;;
  let st := {| model := backward (model st) loss;
               optimizer := optimizer st;
               scheduler := scheduler st;
               tr_loss := loss_add (tr_loss st) loss;
               global_step := global_step st;
               nb_tr_steps := nb_tr_steps st + 1 |} in
  st <- (if (Z.of_nat step + 1) mod gradient_accumulation_steps args =? 0 then
           emit EvOptimizerStep ;;
           emit EvSchedulerStep ;;
           emit EvZeroGrad ;;
           let '(o, m) := optimizer_step (optimizer st) (model st) in
           ret {| model := zero_grad m;
                  optimizer := o;
                  scheduler := scheduler_step (scheduler st);
                  tr_loss := tr_loss st;
                  global_step := global_step st + 1;
                  nb_tr_steps := nb_tr_steps st |}
         else ret st) ;;
  save_checkpoint epoch st ;;
  ret st.

(** Lines 379-410 and 466-498: the loop over the evaluation batches. *)
Definition eval_step (args : Args) (label_map : gmap Z string) (m : Model)
    (_ : nat) (batch : Batch) (y : list string * list string)
    : M (list string * list string) :=
  emit EvInference ;;
  let logits := model_logits (model_arch args) m batch in
  match eval_batch label_map logits (label_ids batch) y.1 y.2 with
  | inl e => raise (DecodeError e)
  | inr y' => ret y'
  end.

(** Lines 353-419 and 439-507: evaluation and its report. *)
Definition evaluate (args : Args) (env : Env) (m : Model) (report : string) : M unit :=
  eval_dataloader <-
    (if String.eqb (eval_on args) "dev" then
       emit (EvReadExamples "dev") ;; ret (dev_dataloader env)
     else if String.eqb (eval_on args) "test" then
       emit (EvReadExamples "test") ;; ret (test_dataloader env)
     else raise EvalOnInvalid) ;;
  emit (EvConvertFeatures "eval") ;;
  let label_map := label_map (label_list env) in
  y <- for_each (eval_step args label_map m) 0 eval_dataloader ([], []) ;;
  emit (EvWriteReport report) ;;
  write_file report (FReport y.1 y.2).

(** [args.local_rank == -1 or torch.distributed.get_rank() == 0] *)
Definition is_main_process (args : Args) (env : Env) : bool :=
  (local_rank args =? -1) || (rank env =? 0).

(** Lines 317-419: the body of the loop over the batches of an epoch. *)
Definition train_step (args : Args) (env : Env) (n_gpu : Z) (epoch : Z)
    (step : nat) (batch : Batch) (st : TrainState) : M TrainState :=
  st <- train_batch args n_gpu epoch step batch st ;;
  (if do_eval args && eval_every_epoch args && is_main_process args env then
     evaluate args env (model st) "eval_results.txt"
   else ret tt) ;;
  ret st.

(** Lines 313-419: one epoch. *)
Definition train_epoch (args : Args) (env : Env) (n_gpu : Z)
    (train_batch_size' : Z) (_ : nat) (epoch : Z) (st : TrainState)
    : M TrainState :=
  let st := {| model := model st;
               optimizer := optimizer st;
               scheduler := scheduler st;
               tr_loss := loss_zero;
               global_step := global_step st;
               nb_tr_steps := 0 |} in
  for_each (train_step args env n_gpu epoch) 0
    (train_dataloader env train_batch_size' epoch) st.

(** Lines 291-429: the [if args.do_train:] branch. *)
Definition train (args : Args) (env : Env) (n_gpu : Z) (train_batch_size' : Z)
    (start_epoch : Z) (st : TrainState) : M TrainState :=
  emit (EvConvertFeatures "train") ;;
  emit (EvTrainDataLoader train_batch_size') ;;
  st <- for_each (train_epoch args env n_gpu train_batch_size') 0
          (seqZ start_epoch (num_train_epochs args - start_epoch)) st ;;
  emit EvSavePretrained ;;
  write_file "pytorch_model.bin" (FModel (model st)) ;;
  write_file "config.json" FOther ;;
  write_file "tokenizer_config.json" FOther ;;
  emit EvWriteModelConfig ;;
  write_file "model_config.json" FOther ;;
  ret st.

(** Lines 431-434: the [else:] branch, the model is read from the output
    directory. *)
Definition load_trained (st : TrainState) : M TrainState :=
  emit EvLoadFromOutputDir ;;
  d <- get_dir ;;
  match read_file "pytorch_model.bin" d with
  | Some (FModel m) =>
      ret {| model := m;
             optimizer := optimizer st;
             scheduler := scheduler st;
             tr_loss := tr_loss st;
             global_step := global_step st;
             nb_tr_steps := nb_tr_steps st |}
  | _ => raise PretrainedNotFound
  end.

(** Lines 291-507: training or loading the trained model, then the final
    evaluation. *)
Definition run_modes (args : Args) (env : Env) (n_gpu : Z) (train_batch_size' : Z)
    (restored : TrainState * Z) : M unit :=
  let '(st, start_epoch) := restored in
  st <- (if do_train args then train args env n_gpu train_batch_size' start_epoch st
         else load_trained st) ;;
  if do_eval args && is_main_process args env then
    evaluate args env (model st) "test_results.txt"
  else ret tt.

Definition main (args : Args) (env : Env) : M unit :=
  n_gpu <- setup_device args env ;;
  train_batch_size' <- preflight args ;;
  st <- prepare args env train_batch_size' ;;
  restored <- load_checkpoint st ;;
  run_modes args env n_gpu train_batch_size' restored.

(** The three components of a run. *)
Definition events {A : Type} (r : list Event * Dir * (Exn + A)) : list Event := r.1.1.
Definition final_dir {A : Type} (r : list Event * Dir * (Exn + A)) : Dir := r.1.2.
Definition result {A : Type} (r : list Event * Dir * (Exn + A)) : Exn + A := r.2.

(** *** Reading a trace *)

Definition event_name (e : Event) : string :=
  match e with
  | EvQueryDevice => "torch.device"
  | EvSetDevice => "torch.cuda.set_device"
  | EvInitProcessGroup => "init_process_group"
  | EvSeed => "seed"
  | EvMakeDirs => "os.makedirs"
  | EvFromPretrained => "from_pretrained"
  | EvReadExamples split => "read " ++ split
  | EvBarrier => "barrier"
  | EvTorchLoad => "torch.load"
  | EvConvertFeatures mode => "features " ++ mode
  | EvTrainDataLoader _ => "DataLoader"
  | EvForwardBackward _ _ => "forward/backward"
  | EvOptimizerStep => "optimizer.step"
  | EvSchedulerStep => "scheduler.step"
  | EvZeroGrad => "zero_grad"
  | EvTorchSave _ => "torch.save"
  | EvInference => "inference"
  | EvWriteReport name => "write " ++ name
  | EvSavePretrained => "save_pretrained"
  | EvLoadFromOutputDir => "from_pretrained(output_dir)"
  | EvWriteModelConfig => "write model_config.json"
  end%string.

Definition is_torch_load (e : Event) : bool :=
  match e with EvTorchLoad => true | _ => false end.
Definition is_torch_save (e : Event) : bool :=
  match e with EvTorchSave _ => true | _ => false end.
Definition is_forward_backward (e : Event) : bool :=
  match e with EvForwardBackward _ _ => true | _ => false end.
Definition is_optimizer_step (e : Event) : bool :=
  match e with EvOptimizerStep => true | _ => false end.
Definition is_scheduler_step (e : Event) : bool :=
  match e with EvSchedulerStep => true | _ => false end.
Definition is_zero_grad (e : Event) : bool :=
  match e with EvZeroGrad => true | _ => false end.
Definition is_write_report (e : Event) : bool :=
  match e with EvWriteReport _ => true | _ => false end.
Definition is_inference (e : Event) : bool :=
  match e with EvInference => true | _ => false end.
Definition is_from_pretrained (e : Event) : bool :=
  match e with EvFromPretrained => true | _ => false end.
Definition is_train_dataloader (e : Event) : bool :=
  match e with EvTrainDataLoader _ => true | _ => false end.

(** The events of lines 318-350: the training of a batch. *)
Definition is_training_event (e : Event) : bool :=
  is_forward_backward e || is_optimizer_step e || is_scheduler_step e ||
  is_zero_grad e || is_torch_save e.

(** The events of the evaluation loop and of its report. *)
Definition is_evaluation_event (e : Event) : bool :=
  is_inference e || is_write_report e.

(** How many events of a trace satisfy [p]. *)
Definition count (p : Event -> bool) (l : list Event) : nat :=
  length (List.filter p l).

(** A property of traces that holds of the empty trace and is kept by
    concatenation. *)
Class Additive (P : list Event -> Prop) : Prop := {
  additive_nil : P [];
  additive_app : forall l1 l2, P l1 -> P l2 -> P (l1 ++ l2)
}.

(** [P] holds of the trace of every run of [m]. *)
Definition all_runs {A : Type} (P : list Event -> Prop) (m : M A) : Prop :=
  forall d, P (events (m d)).

End Torch.

Arguments Batch : clear implicits.
Arguments Torch : clear implicits.
Arguments CkVal : clear implicits.
Arguments File : clear implicits.
Arguments Dir : clear implicits.
Arguments Event : clear implicits.
Arguments Env : clear implicits.
Arguments TrainState : clear implicits.

End Driver.

(** ** Concrete runs *)

Module Samples.
Import Driver.

(** A stand-in for the external collaborators: the model, the optimizer and
    the scheduler count the optimizer steps they have seen, and the
    predictions of a batch are read off its tensors. *)
#[export] Instance counting_torch : Torch nat nat nat unit (list (list Z)) := {|
  model_loss := fun _ _ => tt;
  loss_mean := fun l => l;
  loss_div := fun l _ => l;
  backward := fun m _ => m;
  loss_zero := tt;
  loss_add := fun _ _ => tt;
  optimizer_step := fun o m => (S o, S m);
  scheduler_step := S;
  zero_grad := fun m => m;
  model_logits := fun _ _ b => tensors b
|}.

(** Another stand-in, which tells the three calls at a boundary apart: the
    optimizer counts its steps, the scheduler its own, and the model the
    times its gradients were cleared. *)
Definition tallying_torch : Torch nat nat nat unit (list (list Z)) := {|
  model_loss := fun _ _ => tt;
  loss_mean := fun l => l;
  loss_div := fun l _ => l;
  backward := fun m _ => m;
  loss_zero := tt;
  loss_add := fun _ _ => tt;
  optimizer_step := fun o m => (S o, m);
  scheduler_step := S;
  zero_grad := S;
  model_logits := fun _ _ b => tensors b
|}.

(** The command line of a run: the arguments that vary between the runs
    below, the others at the defaults of the argument parser. *)
Definition sample_args (do_train do_eval eval_every_epoch : bool) (eval_on : string)
    (local_rank train_batch_size gradient_accumulation_steps : Z) : Args := {|
  model_type := "bert";
  model_arch := "original";
  task_name := "punctuation_prediction";
  Driver.do_train := do_train;
  Driver.do_eval := do_eval;
  Driver.eval_on := eval_on;
  Driver.train_batch_size := train_batch_size;
  Driver.eval_every_epoch := eval_every_epoch;
  num_train_epochs := 3;
  no_cuda := false;
  Driver.local_rank := local_rank;
  Driver.gradient_accumulation_steps := gradient_accumulation_steps;
  fp16 := false
|}.


(** One example of three words, with the prediction of an id outside the
    label map at the second word. *)
Definition sample_batch : Batch (list (list Z)) := {|
  tensors := [[0; 1; 7; 1; 0]];
  label_ids := [[0; 1; 2; 1; 3]]
|}.

Definition sample_env (n_batches : nat) (rank : Z)
    : Env nat nat nat (list (list Z)) := {|
  cuda_available := false;
  device_count := 0;
  Driver.rank := rank;
  apex_installed := false;
  label_list := ["O"; "PERIOD"; "COMMA"];
  pretrained_model := 0%nat;
  new_optimizer := 0%nat;
  new_scheduler := 0%nat;
  train_dataloader := fun _ _ => replicate n_batches sample_batch;
  dev_dataloader := [sample_batch];
  test_dataloader := [sample_batch]
|}.

(** A training set of [n_examples] examples: the data loader gives them in
    batches of the size it is asked for, the last one possibly smaller. *)
Definition sized_env (n_examples : Z) : Env nat nat nat (list (list Z)) := {|
  cuda_available := false;
  device_count := 0;
  Driver.rank := 0;
  apex_installed := false;
  label_list := ["O"; "PERIOD"; "COMMA"];
  pretrained_model := 0%nat;
  new_optimizer := 0%nat;
  new_scheduler := 0%nat;
  train_dataloader := fun batch_size _ =>
    replicate (Z.to_nat ((n_examples + batch_size - 1) / batch_size)) sample_batch;
  dev_dataloader := [sample_batch];
  test_dataloader := [sample_batch]
|}.

Definition fresh_state : TrainState nat nat nat unit := {|
  model := 0%nat;
  optimizer := 0%nat;
  scheduler := 0%nat;
  tr_loss := tt;
  global_step := 0;
  nb_tr_steps := 0
|}.

(** The checkpoint left by an earlier run that stopped in epoch 0. *)
Definition old_checkpoint : gmap string (CkVal nat nat nat unit) :=
  checkpoint_dict 0 fresh_state.

Definition dir_with_checkpoint : Dir nat nat nat unit :=
  Some (<["pytorch_model.bin" := FModel 0%nat]>
        (<[PATH := FCheckpoint old_checkpoint]> ∅)).

End Samples.

(** ** Model class and optimizer parameter groups (lines 196-225, 248-254) *)

Module Setup.

(** The model classes imported at lines 15-17. *)
Inductive ModelClass : Type :=
| PuncBERTModel | PuncBERTLstmModel | PuncBERTCrfModel | PuncBERTLstmCrfModel
| PuncElectraModel | PuncElectraLstmModel | PuncElectraCrfModel | PuncElectraLstmCrfModel
| PuncXLMRModel | PuncXLMRLstmModel | PuncXLMRCrfModel | PuncXLMRLstmCrfModel.

(** Lines 196-225: [model_class] stays [None] for a model type that is none
    of the three. *)
Definition model_class (model_type model_arch : string) : option ModelClass :=
  if String.eqb model_type "bert" then
    if String.eqb model_arch "crf" then Some PuncBERTCrfModel
    else if String.eqb model_arch "lstm" then Some PuncBERTLstmModel
    else if String.eqb model_arch "lstm_crf" then Some PuncBERTLstmCrfModel
    else Some PuncBERTModel
  else if String.eqb model_type "electra" then
    if String.eqb model_arch "crf" then Some PuncElectraCrfModel
    else if String.eqb model_arch "lstm" then Some PuncElectraLstmModel
    else if String.eqb model_arch "lstm_crf" then Some PuncElectraLstmCrfModel
    else Some PuncElectraModel
  else if String.eqb model_type "xlmr" then
    if String.eqb model_arch "crf" then Some PuncXLMRCrfModel
    else if String.eqb model_arch "lstm" then Some PuncXLMRLstmModel
    else if String.eqb model_arch "lstm_crf" then Some PuncXLMRLstmCrfModel
    else Some PuncXLMRModel
  else None.

(** The classes with a CRF head. *)
Definition is_crf_class (c : ModelClass) : bool :=
  match c with
  | PuncBERTCrfModel | PuncBERTLstmCrfModel
  | PuncElectraCrfModel | PuncElectraLstmCrfModel
  | PuncXLMRCrfModel | PuncXLMRLstmCrfModel => true
  | _ => false
  end.

(** [s.endswith(suffix)] *)
Definition endswith (s suffix : string) : bool :=
  (String.length suffix <=? String.length s)%nat &&
  String.eqb
    (substring (String.length s - String.length suffix) (String.length suffix) s)
    suffix.

(** Lines 391 and 479: [if not args.model_arch.endswith('crf')], the
    condition under which the arg-max over the scores is taken. *)
Definition takes_argmax (model_arch : string) : bool :=
  negb (endswith model_arch "crf").

(** [sub in s] on strings. *)
Fixpoint contains (sub s : string) : bool :=
  String.prefix sub s ||
  match s with
  | EmptyString => false
  | String _ s' => contains sub s'
  end.

(** Line 249. *)
Definition no_decay : list string := ["bias"; "LayerNorm.weight"].

(** [any(nd in n for nd in no_decay)] *)
Definition any_no_decay (n : string) : bool :=
  existsb (fun nd => contains nd n) no_decay.

(** Lines 250-254: the two parameter groups, each with its weight decay;
    [zero] is the constant [0.0]. *)
Definition optimizer_grouped_parameters {Param Decay : Type}
    (param_optimizer : list (string * Param)) (weight_decay zero : Decay)
    : list (list Param * Decay) :=
  [ (map snd (List.filter (fun np => negb (any_no_decay (fst np))) param_optimizer),
     weight_decay);
    (map snd (List.filter (fun np => any_no_decay (fst np)) param_optimizer),
     zero) ].

End Setup.

(** ** More ways to read a run *)

Module Reading.
Import Driver.

Section Reading.
Context {Model Optimizer Scheduler Loss : Type}.

Definition is_barrier (e : Event Model Optimizer Scheduler Loss) : bool :=
  match e with EvBarrier => true | _ => false end.

(** A computation whose trace and result do not depend on the output
    directory it starts from. *)
Definition dir_blind {A : Type} (m : @M Model Optimizer Scheduler Loss A) : Prop :=
  exists ev r, forall d, events (m d) = ev /\ result (m d) = r.

(** [sum(f(x) for x in l)] *)
Definition sum_over (f : Z -> Z) (l : list Z) : Z :=
  foldr (fun x acc => f x + acc) 0 l.

Definition is_save_pretrained (e : Event Model Optimizer Scheduler Loss) : bool :=
  match e with EvSavePretrained => true | _ => false end.

End Reading.

Section Loader.
Context {Model Optimizer Scheduler Tensors : Type}.

(** The same surroundings with another training data loader. *)
Definition with_train_dataloader (f : Z -> Z -> list (Batch Tensors))
    (env : Env Model Optimizer Scheduler Tensors)
    : Env Model Optimizer Scheduler Tensors := {|
  cuda_available := cuda_available env;
  device_count := device_count env;
  rank := rank env;
  apex_installed := apex_installed env;
  label_list := label_list env;
  pretrained_model := pretrained_model env;
  new_optimizer := new_optimizer env;
  new_scheduler := new_scheduler env;
  train_dataloader := f;
  dev_dataloader := dev_dataloader env;
  test_dataloader := test_dataloader env
|}.
End Loader.
End Reading.

(** ** Facts about the label map *)

Module LabelMapFacts.
Import LabelMap.

Lemma enumerate_lookup {A : Type} (l : list A) (start k : Z) :
  (list_to_map (enumerate start l) : gmap Z A) !! k =
  if decide (start <= k) then l !! Z.to_nat (k - start) else None.
Proof.
  revert start. induction l as [|x l IH]; intros start; simpl.
  - rewrite lookup_empty. by case_decide.
  - destruct (decide (start = k)) as [->|Hne].
    + rewrite lookup_insert_eq. rewrite decide_True by lia.
      by replace (k - k) with 0 by lia.
    + rewrite lookup_insert_ne by done. rewrite IH.
      repeat case_decide; try lia; try done.
      replace (Z.to_nat (k - start)) with (S (Z.to_nat (k - (start + 1)))) by lia.
      done.
Qed.

Lemma enumerate_fst_NoDup {A : Type} (l : list A) (start : Z) :
  NoDup (enumerate start l).*1.
Proof.
  assert (Hlow : forall (l : list A) s k, k ∈ (enumerate s l).*1 -> s <= k).
  { clear. induction l as [|x l IH]; intros s k; simpl.
    - by intros ?%elem_of_nil.
    - intros [->|Hin]%elem_of_cons; [lia|]. apply IH in Hin. lia. }
  revert start. induction l as [|x l IH]; intros start; simpl.
  - constructor.
  - constructor; [|apply IH]. intros Hin%Hlow. lia.
Qed.

Lemma enumerate_length {A : Type} (l : list A) (start : Z) :
  length (enumerate start l) = length l.
Proof. revert start. induction l; intros; simpl; [done|]. by f_equal. Qed.

(** [len(label_map) == len(label_list)] *)
Lemma len_label_map (label_list : list string) :
  len (label_map label_list) = Z.of_nat (length label_list).
Proof.
  unfold len, label_map. f_equal.
  rewrite map_size_list_to_map by apply enumerate_fst_NoDup.
  apply enumerate_length.
Qed.

Lemma label_map_lookup (label_list : list string) (k : Z) :
  label_map label_list !! k =
  if decide (1 <= k) then label_list !! Z.to_nat (k - 1) else None.
Proof. apply enumerate_lookup. Qed.

(** The keys of the label map are exactly [1 .. len(label_list)]. *)
Lemma label_map_is_Some (label_list : list string) (k : Z) :
  is_Some (label_map label_list !! k) <-> 1 <= k <= Z.of_nat (length label_list).
Proof.
  rewrite label_map_lookup. case_decide.
  - rewrite lookup_lt_is_Some. lia.
  - split; [by intros [? ?]|lia].
Qed.

Lemma label_map_None (label_list : list string) (k : Z) :
  label_map label_list !! k = None <-> ~ (1 <= k <= Z.of_nat (length label_list)).
Proof. rewrite <- label_map_is_Some. apply eq_None_not_Some. Qed.

End LabelMapFacts.

(** ** Facts about the decoding loop *)

Module DecodeFacts.
Import LabelMap Decode LabelMapFacts.

Section Walk.
Variables (lm : gmap Z string) (logits : list (list Z)) (i : nat).

Lemma decoded_0 j label ns ps : decoded lm logits i j label 0 ns ps <-> ns = [] /\ ps = [].
Proof.
  unfold decoded. split.
  - intros (Hn & Hp & _). by destruct ns, ps.
  - intros [-> ->]. repeat split; intros; lia.
Qed.

Lemma decoded_S j m rest k ns ps :
  decoded lm logits i j (m :: rest) (S k) ns ps <->
  exists name q ns' ps',
    ns = name :: ns' /\ ps = get_or_pad lm q :: ps' /\
    m <> len lm /\ lm !! m = Some name /\ logits_at logits i j = Some q /\
    decoded lm logits i (S j) rest k ns' ps'.
Proof.
  unfold decoded. split.
  - intros (Hn & Hp & Hall).
    destruct (Hall 0%nat ltac:(lia)) as (m' & name & q & Hm & Hne & Hlm & Hns & Hq & Hps).
    simpl in Hm. injection Hm as <-.
    destruct ns as [|n0 ns']; [done|]. destruct ps as [|p0 ps']; [done|].
    simpl in Hns, Hps. injection Hns as ->. injection Hps as ->.
    rewrite Nat.add_0_r in Hq.
    exists name, q, ns', ps'. split_and!; try done.
    + simpl in Hn. lia.
    + simpl in Hp. lia.
    + intros k' Hk'. destruct (Hall (S k') ltac:(lia)) as (m' & name' & q' & H1 & H2 & H3 & H4 & H5 & H6).
      exists m', name', q'. simpl in H1, H4, H6.
      replace (j + S k')%nat with (S j + k')%nat in H5 by lia. done.
  - intros (name & q & ns' & ps' & -> & -> & Hne & Hlm & Hq & Hn & Hp & Hall).
    repeat split; simpl; try lia.
    intros [|k'] Hk'.
    + exists m, name, q. rewrite Nat.add_0_r. done.
    + destruct (Hall k' ltac:(lia)) as (m' & name' & q' & H1 & H2 & H3 & H4 & H5 & H6).
      exists m', name', q'. simpl.
      replace (j + S k')%nat with (S j + k')%nat by lia. done.
Qed.

(** The walk ends in the [break] branch exactly at the first position
    holding [len(label_map)], provided every position before it decodes. *)
Lemma walk_flushed label : forall j t1 t2 j' a b,
  (1 <= j)%nat ->
  walk lm logits i j label t1 t2 = RowFlushed j' a b <->
  exists k ns ps,
    j' = (j + k)%nat /\ label !! k = Some (len lm) /\
    a = t1 ++ ns /\ b = t2 ++ ps /\ decoded lm logits i j label k ns ps.
Proof.
  induction label as [|m rest IH]; intros j t1 t2 j' a b Hj; simpl.
  - split; [done|]. by intros (k & ns & ps & _ & Hk & _).
  - destruct (Nat.eqb_spec j 0) as [->|_]; [lia|].
    destruct (Z.eqb_spec m (len lm)) as [->|Hne].
    { split.
      - intros [= <- <- <-]. exists 0%nat, [], [].
        rewrite Nat.add_0_r, !app_nil_r, decoded_0. done.
      - intros (k & ns & ps & -> & Hk & -> & -> & Hd).
        destruct k as [|k].
        + apply decoded_0 in Hd as [-> ->]. by rewrite Nat.add_0_r, !app_nil_r.
        + apply decoded_S in Hd as (? & ? & ? & ? & _ & _ & Hbad & _). done. }
    destruct (lm !! m) as [name|] eqn:Hlm.
    2:{ split; [done|]. intros (k & ns & ps & -> & Hk & -> & -> & Hd).
        destruct k as [|k]; [simpl in Hk; congruence|].
        apply decoded_S in Hd as (? & ? & ? & ? & _ & _ & _ & Hbad & _). congruence. }
    destruct (logits_at logits i j) as [q|] eqn:Hq.
    2:{ split; [done|]. intros (k & ns & ps & -> & Hk & -> & -> & Hd).
        destruct k as [|k]; [simpl in Hk; congruence|].
        apply decoded_S in Hd as (? & ? & ? & ? & _ & _ & _ & _ & Hbad & _). congruence. }
    rewrite IH by lia. split.
    + intros (k & ns & ps & -> & Hk & -> & -> & Hd).
      exists (S k), (name :: ns), (get_or_pad lm q :: ps).
      rewrite <- !app_assoc. simpl. split_and!; try done; try lia.
      apply decoded_S. exists name, q, ns, ps. done.
    + intros (k & ns & ps & -> & Hk & -> & -> & Hd).
      destruct k as [|k]; [simpl in Hk; congruence|].
      apply decoded_S in Hd as (name' & q' & ns' & ps' & -> & -> & _ & Hlm' & Hq' & Hd).
      assert (name' = name) as -> by congruence. assert (q' = q) as -> by congruence.
      exists k, ns', ps'. rewrite <- !app_assoc. simpl. split_and!; try done; lia.
Qed.

(** The walk raises [KeyError] exactly at the first position, not after a
    [break], whose id is neither [len(label_map)] nor a key. *)
Lemma walk_key_error label : forall j t1 t2 j' key,
  (1 <= j)%nat ->
  (forall k, (k < length label)%nat -> is_Some (logits_at logits i (j + k))) ->
  walk lm logits i j label t1 t2 = RowKeyError j' key <->
  exists k,
    j' = (j + k)%nat /\ label !! k = Some key /\ key <> len lm /\ lm !! key = None /\
    forall k', (k' < k)%nat ->
      exists m, label !! k' = Some m /\ m <> len lm /\ is_Some (lm !! m).
Proof.
  induction label as [|m rest IH]; intros j t1 t2 j' key Hj Hshape; simpl.
  - split; [done|]. by intros (k & _ & Hk & _).
  - destruct (Nat.eqb_spec j 0) as [->|_]; [lia|].
    destruct (Z.eqb_spec m (len lm)) as [->|Hne].
    { split; [done|]. intros (k & -> & Hk & Hkey & Hnone & Hbefore).
      destruct k as [|k]; [simpl in Hk; congruence|].
      destruct (Hbefore 0%nat ltac:(lia)) as (m' & [= <-] & Hbad & _). done. }
    destruct (lm !! m) as [name|] eqn:Hlm.
    2:{ split.
        - intros [= <- <-]. exists 0%nat. rewrite Nat.add_0_r.
          repeat split; try done. intros; lia.
        - intros (k & -> & Hk & Hkey & Hnone & Hbefore).
          destruct k as [|k].
          + simpl in Hk. injection Hk as <-. by rewrite Nat.add_0_r.
          + destruct (Hbefore 0%nat ltac:(lia)) as (m' & [= <-] & _ & [? Hbad]). congruence. }
    destruct (Hshape 0%nat ltac:(simpl; lia)) as [q Hq].
    rewrite Nat.add_0_r in Hq. rewrite Hq.
    rewrite IH; [|lia|].
    2:{ intros k Hk. replace (S j + k)%nat with (j + S k)%nat by lia.
        apply Hshape. simpl. lia. }
    split.
    + intros (k & -> & Hk & Hkey & Hnone & Hbefore).
      exists (S k). repeat split; try done; try lia.
      intros [|k'] Hk'; [exists m; by rewrite Hlm|].
      apply Hbefore. lia.
    + intros (k & -> & Hk & Hkey & Hnone & Hbefore).
      destruct k as [|k]; [simpl in Hk; congruence|].
      exists k. repeat split; try done; try lia.
      intros k' Hk'. apply (Hbefore (S k')). lia.
Qed.

(** With a prediction for every position, [logits[i][j]] never raises. *)
Lemma walk_no_index_error label : forall j t1 t2 j',
  (forall k, (k < length label)%nat -> is_Some (logits_at logits i (j + k))) ->
  walk lm logits i j label t1 t2 <> RowIndexError j'.
Proof.
  induction label as [|m rest IH]; intros j t1 t2 j' Hshape; simpl; [done|].
  assert (Hrest : forall k, (k < length rest)%nat -> is_Some (logits_at logits i (S j + k))).
  { intros k Hk. replace (S j + k)%nat with (j + S k)%nat by lia.
    apply Hshape. simpl. lia. }
  destruct (j =? 0)%nat; [by apply IH|].
  destruct (m =? len lm); [done|].
  destruct (lm !! m); [|done].
  destruct (Hshape 0%nat ltac:(simpl; lia)) as [q Hq].
  rewrite Nat.add_0_r in Hq. rewrite Hq. by apply IH.
Qed.

End Walk.
End DecodeFacts.

(** ** The decoding loop against the specification *)

Module DecodeSpec.
Import LabelMap Decode LabelMapFacts DecodeFacts.

(** The walk over a row skips position 0 and goes on from position 1. *)
Lemma eval_row_cons lm logits i m rest :
  eval_row lm logits i (m :: rest) = walk lm logits i 1 rest [] [].
Proof. reflexivity. Qed.

Lemma shape_tail (logits : list (list Z)) (i : nat) (m : Z) (rest : list Z) :
  (forall p, (p < length (m :: rest))%nat -> is_Some (logits_at logits i p)) ->
  forall k, (k < length rest)%nat -> is_Some (logits_at logits i (1 + k)).
Proof. intros Hshape k Hk. apply Hshape. simpl. lia. Qed.

(** The flush of a row, in terms of the positions of the row. *)
Lemma eval_row_flushed_iff
    (label_list : list string) (logits : list (list Z)) (i : nat) (label : list Z)
    (j : nat) (t1 t2 : list string) :
  eval_row (label_map label_list) logits i label = RowFlushed j t1 t2 <->
  (1 <= j)%nat /\
  label !! j = Some (Z.of_nat (length label_list)) /\
  length t1 = (j - 1)%nat /\ length t2 = (j - 1)%nat /\
  forall p, (1 <= p < j)%nat ->
    exists m name q,
      label !! p = Some m /\ m <> Z.of_nat (length label_list) /\
      label_map label_list !! m = Some name /\
      t1 !! (p - 1)%nat = Some name /\
      logits_at logits i p = Some q /\
      t2 !! (p - 1)%nat = Some (get_or_pad (label_map label_list) q).
Proof.
  rewrite <- len_label_map.
  destruct label as [|m0 rest].
  { split; [done|]. by intros (_ & Hj & _). }
  rewrite eval_row_cons, walk_flushed by lia. split.
  - intros (k & ns & ps & -> & Hk & -> & -> & Hn & Hp & Hall). simpl.
    rewrite Nat.sub_0_r. split_and!; try done; try lia.
    intros p Hp'.
    destruct (Hall (p - 1)%nat ltac:(lia)) as (m & name & q & H1 & H2 & H3 & H4 & H5 & H6).
    exists m, name, q. replace (1 + (p - 1))%nat with p in H5 by lia.
    split_and!; try done. destruct p as [|p]; [lia|]. simpl in *.
    by rewrite Nat.sub_0_r in H1.
  - intros (Hj & Hstop & Hn & Hp & Hall).
    destruct j as [|k]; [lia|]. simpl in Hstop, Hn, Hp. rewrite Nat.sub_0_r in Hn, Hp.
    exists k, t1, t2. unfold decoded. split_and!; try done.
    intros k' Hk'.
    destruct (Hall (S k') ltac:(lia)) as (m & name & q & H1 & H2 & H3 & H4 & H5 & H6).
    exists m, name, q. simpl in H1, H4, H6. rewrite Nat.sub_0_r in H4, H6. done.
Qed.

(** C1 (as the code has it): the walk over an example's row, from position
    1 onward, takes the [break] branch and flushes exactly at the first
    position whose label id equals [len(label_map)], which is
    [len(label_list)], that is [num_labels - 1]; the lists flushed hold the
    decoded names of the positions before it, and they are appended to
    [y_true] and [y_pred]. *)
Theorem eval_row_stops_at_len_label_map
    (label_list : list string) (logits : list (list Z)) (i : nat) (label : list Z)
    (j : nat) (t1 t2 : list string) :
  len (label_map label_list) = num_labels label_list - 1 /\
  (eval_row (label_map label_list) logits i label = RowFlushed j t1 t2 <->
   (1 <= j)%nat /\
   label !! j = Some (Z.of_nat (length label_list)) /\
   length t1 = (j - 1)%nat /\ length t2 = (j - 1)%nat /\
   forall p, (1 <= p < j)%nat ->
     exists m name q,
       label !! p = Some m /\ m <> Z.of_nat (length label_list) /\
       label_map label_list !! m = Some name /\
       t1 !! (p - 1)%nat = Some name /\
       logits_at logits i p = Some q /\
       t2 !! (p - 1)%nat = Some (get_or_pad (label_map label_list) q)) /\
  (eval_row (label_map label_list) logits i label = RowFlushed j t1 t2 ->
   forall rest y_true y_pred,
     eval_rows (label_map label_list) logits i (label :: rest) y_true y_pred =
     eval_rows (label_map label_list) logits (S i) rest (y_true ++ t1) (y_pred ++ t2)).
Proof.
  split; [rewrite len_label_map; unfold num_labels; lia|].
  split; [apply eval_row_flushed_iff|].
  intros Hrow rest y_true y_pred. simpl. by rewrite Hrow.
Qed.

(** C8: while a row is decoded, a predicted label id that is no key of the
    label map is turned into the name ["PAD"]; with a prediction for every
    position of the row, no predicted id makes the walk raise: the only
    lookup that can fail is the one of the true label id. *)
Theorem predicted_id_falls_back_to_PAD
    (label_list : list string) (logits : list (list Z)) (i : nat) (label : list Z) :
  (forall p, (p < length label)%nat -> is_Some (logits_at logits i p)) ->
  (forall j, eval_row (label_map label_list) logits i label <> RowIndexError j) /\
  (forall j key,
     eval_row (label_map label_list) logits i label = RowKeyError j key ->
     label !! j = Some key /\ label_map label_list !! key = None) /\
  (forall j t1 t2 p q,
     eval_row (label_map label_list) logits i label = RowFlushed j t1 t2 ->
     (1 <= p < j)%nat ->
     logits_at logits i p = Some q ->
     label_map label_list !! q = None ->
     t2 !! (p - 1)%nat = Some "PAD").
Proof.
  intros Hshape. split_and!.
  - intros j. apply walk_no_index_error. done.
  - intros j key. destruct label as [|m0 rest]; [done|].
    rewrite eval_row_cons, walk_key_error; [|lia|by eapply shape_tail].
    intros (k & -> & Hk & _ & Hnone & _). done.
  - intros j t1 t2 p q Hrow Hp Hq Hnone.
    apply eval_row_flushed_iff in Hrow as (_ & _ & _ & _ & Hall).
    destruct (Hall p Hp) as (m & name & q' & _ & _ & _ & _ & Hq' & ->).
    assert (q' = q) as -> by congruence.
    unfold get_or_pad. by rewrite Hnone.
Qed.

(** C10: the true label id is looked up without a fallback.  With a
    prediction for every position, the walk raises at position [j] exactly
    when [j] is the first position from 1 on, before any position holding
    [len(label_map)], whose id is not a key of the label map; the keys are
    the integers [1 .. len(label_list)], so 0 and [len(label_list) + 1] are
    not among them. *)
Theorem true_label_lookup_has_no_fallback
    (label_list : list string) (logits : list (list Z)) (i : nat) (label : list Z) :
  (forall p, (p < length label)%nat -> is_Some (logits_at logits i p)) ->
  (forall j key,
     eval_row (label_map label_list) logits i label = RowKeyError j key <->
     (1 <= j)%nat /\ label !! j = Some key /\
     key <> len (label_map label_list) /\
     ~ (1 <= key <= Z.of_nat (length label_list)) /\
     forall p, (1 <= p < j)%nat ->
       exists m, label !! p = Some m /\ 1 <= m < Z.of_nat (length label_list)) /\
  (forall key, is_Some (label_map label_list !! key) <->
               1 <= key <= Z.of_nat (length label_list)) /\
  label_map label_list !! 0 = None /\
  label_map label_list !! (Z.of_nat (length label_list) + 1) = None.
Proof.
  intros Hshape. split_and!.
  - intros j key. destruct label as [|m0 rest].
    { split; [done|]. by intros (_ & Hj & _). }
    rewrite eval_row_cons, walk_key_error; [|lia|by eapply shape_tail].
    split.
    + intros (k & -> & Hk & Hne & Hnone & Hbefore).
      split_and!; try done; try lia.
      * by apply label_map_None.
      * intros p Hp. destruct (Hbefore (p - 1)%nat ltac:(lia)) as (m & Hm & Hm' & Hsome).
        exists m. destruct p as [|p]; [lia|]. simpl in *. rewrite Nat.sub_0_r in Hm.
        split; [done|]. apply label_map_is_Some in Hsome.
        rewrite len_label_map in Hm'. lia.
    + intros (Hj & Hkey & Hne & Hnone & Hbefore).
      destruct j as [|k]; [lia|]. exists k. split_and!; try done.
      * by apply label_map_None.
      * intros k' Hk'. destruct (Hbefore (S k') ltac:(lia)) as (m & Hm & Hm').
        exists m. split_and!; try done.
        -- rewrite len_label_map. lia.
        -- apply label_map_is_Some. lia.
  - apply label_map_is_Some.
  - apply label_map_None. lia.
  - apply label_map_None. lia.
Qed.

(** A row of five positions with a prediction at each of them. *)
Lemma shape_5 (a b c d e : Z) (l0 l1 l2 l3 l4 : Z) :
  forall p, (p < length [l0; l1; l2; l3; l4])%nat ->
            is_Some (logits_at [[a; b; c; d; e]] 0 p).
Proof.
  intros p Hp. simpl in Hp.
  do 5 (destruct p as [|p]; [by eexists|]). lia.
Qed.

(** C1, as the claim states it, fails: with two labels the row
    [0; 1; 2; 3; 0; 0] holds [num_labels = 3] at position 3, and the walk
    flushes at position 2 already, where the id is [len(label_map) = 2]. *)
Lemma eval_row_does_not_stop_at_num_labels :
  eval_row (label_map ["O"; "PERIOD"]) [[0; 1; 1; 1; 0; 0]] 0 [0; 1; 2; 3; 0; 0]
    = RowFlushed 2 ["O"] ["O"] /\
  num_labels ["O"; "PERIOD"] = 3 /\
  ~ (forall label_list logits i label j t1 t2,
       eval_row (label_map label_list) logits i label = RowFlushed j t1 t2 ->
       label !! j = Some (num_labels label_list)).
Proof.
  split_and!; [reflexivity..|].
  intros Hclaim.
  specialize (Hclaim ["O"; "PERIOD"] [[0; 1; 1; 1; 0; 0]] 0%nat [0; 1; 2; 3; 0; 0]
                2%nat ["O"] ["O"] eq_refl).
  discriminate Hclaim.
Qed.

Lemma eval_row_stops_at_len_label_map_witness :
  eval_row (label_map ["O"; "PERIOD"]) [[0; 1; 1; 1; 0; 0]] 0 [0; 1; 2; 3; 0; 0]
    = RowFlushed 2 ["O"] ["O"] /\
  eval_rows (label_map ["O"; "PERIOD"]) [[0; 1; 1; 1; 0; 0]] 0
    [[0; 1; 2; 3; 0; 0]] ["COMMA"] ["O"]
  = eval_rows (label_map ["O"; "PERIOD"]) [[0; 1; 1; 1; 0; 0]] 1
    [] (["COMMA"] ++ ["O"]) (["O"] ++ ["O"]).
Proof.
  split; [reflexivity|].
  apply (proj2 (proj2 (eval_row_stops_at_len_label_map ["O"; "PERIOD"]
                         [[0; 1; 1; 1; 0; 0]] 0 [0; 1; 2; 3; 0; 0] 2 ["O"] ["O"]))).
  reflexivity.
Defined.

Lemma predicted_id_falls_back_to_PAD_witness :
  eval_row (label_map ["O"; "PERIOD"; "COMMA"]) [[0; 1; 7; 0; 0]] 0 [0; 1; 2; 3; 0]
    = RowFlushed 3 ["O"; "PERIOD"] ["O"; "PAD"] /\
  ["O"; "PAD"] !! (2 - 1)%nat = Some "PAD".
Proof.
  split; [reflexivity|].
  apply (proj2 (proj2 (predicted_id_falls_back_to_PAD ["O"; "PERIOD"; "COMMA"]
                         [[0; 1; 7; 0; 0]] 0 [0; 1; 2; 3; 0]
                         (shape_5 0 1 7 0 0 0 1 2 3 0)))
           3%nat ["O"; "PERIOD"] ["O"; "PAD"] 2%nat 7).
  - reflexivity.
  - lia.
  - reflexivity.
  - reflexivity.
Defined.

Lemma true_label_lookup_has_no_fallback_witness :
  eval_row (label_map ["O"; "PERIOD"; "COMMA"]) [[0; 1; 1; 1; 1]] 0 [0; 1; 4; 3; 0]
    = RowKeyError 2 4.
Proof.
  apply (proj1 (true_label_lookup_has_no_fallback ["O"; "PERIOD"; "COMMA"]
                  [[0; 1; 1; 1; 1]] 0 [0; 1; 4; 3; 0]
                  (shape_5 0 1 1 1 1 0 1 4 3 0)) 2%nat 4).
  split_and!.
  - lia.
  - reflexivity.
  - vm_compute. discriminate.
  - simpl. lia.
  - intros p Hp. assert (p = 1%nat) as -> by lia. exists 1. simpl. split; [reflexivity|lia].
Defined.

End DecodeSpec.

(** ** Facts about the driver *)

Module DriverFacts.
Import LabelMap Decode Driver.

Section Runs.
Context {Model Optimizer Scheduler Loss Tensors : Type}.
Context `{!Torch Model Optimizer Scheduler Loss Tensors}.

Abbreviation M := (@M Model Optimizer Scheduler Loss).
Abbreviation Event := (Event Model Optimizer Scheduler Loss).
Abbreviation Dir := (Dir Model Optimizer Scheduler Loss).
Abbreviation TrainState := (TrainState Model Optimizer Scheduler Loss).
Abbreviation Env := (Env Model Optimizer Scheduler Tensors).
Abbreviation Batch := (Batch Tensors).

(** *** The monad *)

Lemma bind_inl {A B : Type} (m : M A) (f : A -> M B) d ev d' e :
  m d = (ev, d', inl e) -> bind m f d = (ev, d', inl e).
Proof. unfold bind. by intros ->. Qed.

Lemma bind_inr {A B : Type} (m : M A) (f : A -> M B) d ev d' a :
  m d = (ev, d', inr a) ->
  bind m f d = (ev ++ events (f a d'), final_dir (f a d'), result (f a d')).
Proof. unfold bind. intros ->. by destruct (f a d') as [[? ?] ?]. Qed.

Lemma run_eta {A : Type} (r : list Event * Dir * (Exn + A)) :
  r = (events r, final_dir r, result r).
Proof. by destruct r as [[? ?] ?]. Qed.

Lemma events_bind {A B : Type} (m : M A) (f : A -> M B) d :
  events (bind m f d) =
  events (m d) ++
  match result (m d) with
  | inl _ => []
  | inr a => events (f a (final_dir (m d)))
  end.
Proof.
  unfold bind, events, result, final_dir.
  destruct (m d) as [[ev d'] [e|a]]; simpl; [by rewrite app_nil_r|].
  by destruct (f a d') as [[? ?] ?].
Qed.

Lemma result_bind {A B : Type} (m : M A) (f : A -> M B) d :
  result (bind m f d) =
  match result (m d) with
  | inl e => inl e
  | inr a => result (f a (final_dir (m d)))
  end.
Proof.
  unfold bind, events, result, final_dir.
  destruct (m d) as [[ev d'] [e|a]]; simpl; [done|].
  by destruct (f a d') as [[? ?] ?].
Qed.

Lemma final_dir_bind {A B : Type} (m : M A) (f : A -> M B) d :
  final_dir (bind m f d) =
  match result (m d) with
  | inl e => final_dir (m d)
  | inr a => final_dir (f a (final_dir (m d)))
  end.
Proof.
  unfold bind, events, result, final_dir.
  destruct (m d) as [[ev d'] [e|a]]; simpl; [done|].
  by destruct (f a d') as [[? ?] ?].
Qed.

(** A run of [bind m f] that returns is a run of [m] that returns followed
    by a run of [f]. *)
Lemma bind_returns {A B : Type} (m : M A) (f : A -> M B) d evs d' b :
  bind m f d = (evs, d', inr b) ->
  exists e1 d1 a e2,
    m d = (e1, d1, inr a) /\ f a d1 = (e2, d', inr b) /\ evs = e1 ++ e2.
Proof.
  unfold bind. destruct (m d) as [[e1 d1] [e|a]]; [done|].
  destruct (f a d1) as [[e2 d2] r] eqn:Hf. intros [= <- <- ->].
  by exists e1, d1, a, e2.
Qed.

(** *** Counting events *)

Lemma count_app (p : Event -> bool) (l1 l2 : list Event) :
  count p (l1 ++ l2) = (count p l1 + count p l2)%nat.
Proof. unfold count. by rewrite List.filter_app, length_app. Qed.

Lemma count_cons (p : Event -> bool) (e : Event) (l : list Event) :
  count p (e :: l) = ((if p e then 1 else 0) + count p l)%nat.
Proof. unfold count. simpl. by destruct (p e). Qed.

#[export] Instance count_zero_additive (p : Event -> bool) :
  Additive (fun l => count p l = 0%nat).
Proof. split; [done|]. intros l1 l2 H1 H2. rewrite count_app. lia. Qed.

#[export] Instance count_eq_additive (p q : Event -> bool) :
  Additive (fun l => count p l = count q l).
Proof. split; [done|]. intros l1 l2 H1 H2. rewrite !count_app. lia. Qed.

#[export] Instance and_additive (P Q : list Event -> Prop) :
  Additive P -> Additive Q -> Additive (fun l => P l /\ Q l).
Proof.
  intros HP HQ. split; [split; apply additive_nil|].
  intros l1 l2 [? ?] [? ?]. split; by apply additive_app.
Qed.

(** *** Properties of every run *)

Section AllRuns.
Context (P : list Event -> Prop) `{!Additive P}.

Lemma all_runs_ret {A : Type} (a : A) : all_runs P (ret a).
Proof. intros d. apply additive_nil. Qed.

Lemma all_runs_raise {A : Type} (e : Exn) : all_runs P (@raise _ _ _ _ A e).
Proof. intros d. apply additive_nil. Qed.

Lemma all_runs_get_dir : all_runs P get_dir.
Proof. intros d. apply additive_nil. Qed.

Lemma all_runs_put_dir d' : all_runs P (put_dir d').
Proof. intros d. apply additive_nil. Qed.

Lemma all_runs_emit (e : Event) : P [e] -> all_runs P (emit e).
Proof. intros He d. apply He. Qed.

Lemma all_runs_bind {A B : Type} (m : M A) (f : A -> M B) :
  all_runs P m -> (forall a, all_runs P (f a)) -> all_runs P (bind m f).
Proof.
  intros Hm Hf d. rewrite events_bind.
  apply additive_app; [apply Hm|].
  destruct (result (m d)); [apply additive_nil|apply Hf].
Qed.

Lemma all_runs_raise_if (c : bool) (e : Exn) : all_runs P (raise_if c e).
Proof. destruct c; [apply all_runs_raise|apply all_runs_ret]. Qed.

Lemma all_runs_write_file name f : all_runs P (write_file name f).
Proof.
  apply all_runs_bind; [apply all_runs_get_dir|]. intros. apply all_runs_put_dir.
Qed.

Lemma all_runs_for_each {A St : Type} (body : nat -> A -> St -> M St) (l : list A) :
  (forall i x st, all_runs P (body i x st)) ->
  forall i st, all_runs P (for_each body i l st).
Proof.
  intros Hbody. induction l as [|x l IH]; intros i st; simpl.
  - apply all_runs_ret.
  - apply all_runs_bind; [apply Hbody|]. intros. apply IH.
Qed.

End AllRuns.

End Runs.

(** Breaks a goal [all_runs P m] down along the structure of [m]; [leaf]
    proves [P [e]] for an emitted event. *)
Ltac all_runs_with leaf :=
  repeat first
    [ apply all_runs_ret; solve [tc_solve]
    | apply all_runs_raise; solve [tc_solve]
    | apply all_runs_raise_if; solve [tc_solve]
    | apply all_runs_get_dir; solve [tc_solve]
    | apply all_runs_put_dir; solve [tc_solve]
    | apply all_runs_write_file; solve [tc_solve]
    | apply all_runs_emit; solve [leaf]
    | apply all_runs_bind; [tc_solve| |intros ?]
    | apply all_runs_for_each; [tc_solve|intros ? ? ?]
    | match goal with
      | |- all_runs _ (if ?c then _ else _) => destruct c
      | |- all_runs _ (match ?x with _ => _ end) => destruct x
      end ].

End DriverFacts.

(** ** The training loop against the specification *)

Module TrainingFacts.
Import LabelMap Decode Driver Reading DriverFacts.

(** [(step + 1) % k == 0] holds at every [k]-th batch: the number of
    multiples of [k] up to [i + 1] is one more than up to [i] exactly then. *)
Lemma boundary_div (k i : Z) :
  1 <= k -> 0 <= i ->
  (i + 1) / k - i / k = if (i + 1) mod k =? 0 then 1 else 0.
Proof.
  intros Hk Hi.
  pose proof (Z.div_mod i k ltac:(lia)) as Hi'.
  pose proof (Z.mod_pos_bound i k ltac:(lia)) as Hr.
  pose proof (Z.div_mod (i + 1) k ltac:(lia)) as Hi1.
  pose proof (Z.mod_pos_bound (i + 1) k ltac:(lia)) as Hr1.
  destruct (Z.eqb_spec ((i + 1) mod k) 0) as [H0|H0]; nia.
Qed.

Section Training.
Context {Model Optimizer Scheduler Loss Tensors : Type}.
Context `{!Torch Model Optimizer Scheduler Loss Tensors}.

Abbreviation M := (@M Model Optimizer Scheduler Loss).
Abbreviation Event := (Event Model Optimizer Scheduler Loss).
Abbreviation Dir := (Dir Model Optimizer Scheduler Loss).
Abbreviation TrainState := (TrainState Model Optimizer Scheduler Loss).
Abbreviation Env := (Env Model Optimizer Scheduler Tensors).
Abbreviation Batch := (Batch Tensors).

Implicit Types (args : Args) (env : Env) (d : Dir) (st : TrainState) (batch : Batch).

(** The checkpoint dictionary has the five keys of lines 345-349. *)
Lemma checkpoint_dict_dom epoch st :
  dom (checkpoint_dict epoch st) =
  ({["epoch"; "model_state_dict"; "optimizer_state_dict"; "loss"; "scheduler"]}
     : gset string).
Proof.
  unfold checkpoint_dict. rewrite !dom_insert_L, dom_empty_L. set_solver.
Qed.

(** One batch of training: what it emits, what it leaves in the output
    directory, and the state it returns. *)
Lemma train_batch_run args n_gpu epoch step batch st d :
  exists st',
    train_batch args n_gpu epoch step batch st d =
      (EvForwardBackward epoch step ::
       (if (Z.of_nat step + 1) mod gradient_accumulation_steps args =? 0
        then [EvOptimizerStep; EvSchedulerStep; EvZeroGrad] else []) ++
       [EvTorchSave (checkpoint_dict epoch st')],
       Some (<[PATH := FCheckpoint (checkpoint_dict epoch st')]> (default ∅ d)),
       inr st') /\
    global_step st' =
      global_step st +
      (if (Z.of_nat step + 1) mod gradient_accumulation_steps args =? 0 then 1 else 0).
Proof.
  unfold train_batch, save_checkpoint, write_file, bind, emit, ret, get_dir, put_dir.
  simpl.
  destruct ((Z.of_nat step + 1) mod gradient_accumulation_steps args =? 0);
    [destruct (optimizer_step _ _) as [o m]|];
    simpl; eexists; (split; [reflexivity|simpl; lia]).
Qed.


Lemma count_zero_mono (p q : Event -> bool) (l : list Event) :
  (forall e, p e = true -> q e = true) -> count q l = 0%nat -> count p l = 0%nat.
Proof.
  intros Hpq. induction l as [|e l IH]; [done|].
  rewrite !count_cons. destruct (p e) eqn:Hp.
  - rewrite (Hpq e Hp). lia.
  - destruct (q e); [lia|]. simpl. apply IH.
Qed.

(** Evaluation neither trains nor touches the checkpoint. *)
Lemma evaluate_all_runs (P : list Event -> Prop) `{!Additive P} args env m report :
  (forall split, P [EvReadExamples split]) ->
  (forall mode, P [EvConvertFeatures mode]) ->
  P [EvInference] ->
  (forall name, P [EvWriteReport name]) ->
  all_runs P (evaluate args env m report).
Proof.
  intros H1 H2 H3 H4. unfold evaluate, eval_step.
  all_runs_with ltac:(auto).
Qed.

Lemma evaluate_no_training args env m report :
  all_runs (fun l => count is_training_event l = 0%nat) (evaluate args env m report).
Proof. by apply evaluate_all_runs; try tc_solve. Qed.

Lemma evaluate_no_torch_load args env m report :
  all_runs (fun l => count is_torch_load l = 0%nat) (evaluate args env m report).
Proof. by apply evaluate_all_runs; try tc_solve. Qed.

(** A loop body that returns: the batch is trained and checkpointed, then
    the evaluation, if any, adds no training event. *)
Lemma train_step_returns args env n_gpu epoch step batch st d evs d' st' :
  train_step args env n_gpu epoch step batch st d = (evs, d', inr st') ->
  exists dt ev_eval,
    train_batch args n_gpu epoch step batch st d = (events (train_batch args n_gpu epoch step batch st d), dt, inr st') /\
    evs = events (train_batch args n_gpu epoch step batch st d) ++ ev_eval /\
    count is_training_event ev_eval = 0%nat.
Proof.
  unfold train_step. intros Hrun.
  apply bind_returns in Hrun as (e1 & d1 & st1 & e2 & Hb & Hrest & ->).
  apply bind_returns in Hrest as (e3 & d3 & [] & e4 & Heval & Hret & ->).
  injection Hret as <- <- <-.
  exists d1, (e3 ++ []). rewrite Hb. split_and!; try done.
  rewrite app_nil_r.
  destruct (do_eval args && eval_every_epoch args && is_main_process args env).
  - pose proof (evaluate_no_training args env (model st1) "eval_results.txt" d1) as Hq.
    by rewrite Heval in Hq.
  - by injection Heval as <- <-.
Qed.

(** The batches of an epoch, from step [i] on, when the loop returns. *)
Lemma epoch_loop_returns args env n_gpu epoch (l : list Batch) :
  1 <= gradient_accumulation_steps args ->
  forall (i : nat) st d evs d' st',
    for_each (train_step args env n_gpu epoch) i l st d = (evs, d', inr st') ->
    let steps := (Z.of_nat i + Z.of_nat (length l)) / gradient_accumulation_steps args
                 - Z.of_nat i / gradient_accumulation_steps args in
    Z.of_nat (count is_optimizer_step evs) = steps /\
    Z.of_nat (count is_scheduler_step evs) = steps /\
    Z.of_nat (count is_zero_grad evs) = steps /\
    global_step st' = global_step st + steps /\
    count is_forward_backward evs = length l /\
    count is_torch_save evs = length l.
Proof.
  intros Hk. induction l as [|batch l IH]; intros i st d evs d' st' Hrun; simpl in Hrun.
  - injection Hrun as <- <- <-. simpl. rewrite Z.add_0_r, Z.sub_diag.
    split_and!; try reflexivity; lia.
  - apply bind_returns in Hrun as (e1 & d1 & st1 & e2 & Hstep & Hrest & ->).
    apply train_step_returns in Hstep as (dt & ev_eval & Hb & -> & Hquiet).
    destruct (train_batch_run args n_gpu epoch i batch st d) as (st1' & Htb & Hgs).
    rewrite Htb in Hb. injection Hb as _ <-.
    apply IH in Hrest as (Ho & Hs & Hz & Hg & Hf & Hc).
    pose proof (boundary_div (gradient_accumulation_steps args) (Z.of_nat i) Hk ltac:(lia)) as Hdiv.
    assert (Hq : forall p, (forall e, p e = true -> is_training_event e = true) ->
                           count p ev_eval = 0%nat).
    { intros p Hp. by eapply count_zero_mono. }
    simpl length. cbv zeta.
    replace (Z.of_nat i + Z.of_nat (S (length l))) with
      (Z.of_nat (S i) + Z.of_nat (length l)) by lia.
    replace (Z.of_nat (S i)) with (Z.of_nat i + 1) in * by lia.
    rewrite Htb. unfold events at 1 2 3 4 5. simpl fst.
    rewrite !count_app, !count_cons, !count_app.
    rewrite !Hq by (intros []; simpl; intros; done || by rewrite ?orb_true_r).
    destruct ((Z.of_nat i + 1) mod gradient_accumulation_steps args =? 0);
      simpl; rewrite ?count_cons; simpl; split_and!; lia.
Qed.


(** Every batch that is trained is checkpointed, in every run of a loop
    body, also in one that the evaluation cuts short. *)
Lemma train_step_saves args env n_gpu epoch step batch st :
  all_runs (fun l => count is_torch_save l = count is_forward_backward l)
    (train_step args env n_gpu epoch step batch st).
Proof.
  unfold train_step. apply all_runs_bind; [tc_solve| |intros st1].
  - intros d. destruct (train_batch_run args n_gpu epoch step batch st d) as (st' & -> & _).
    unfold events. simpl fst. rewrite !count_cons, !count_app.
    by destruct (_ =? 0).
  - apply all_runs_bind; [tc_solve| |intros; apply all_runs_ret; tc_solve].
    destruct (_ && _); [|apply all_runs_ret; tc_solve].
    by apply evaluate_all_runs; try tc_solve.
Qed.

(** One batch of training, with the state it returns written out: the
    gradients of the scaled loss are added to the model, and on a boundary
    the optimizer steps on that model, the scheduler steps and the gradients
    are cleared. *)
Lemma train_batch_state args n_gpu epoch step batch st d :
  let k := gradient_accumulation_steps args in
  let loss := model_loss (model st) batch in
  let loss := if 1 <? n_gpu then loss_mean loss else loss in
  let loss := if 1 <? k then loss_div loss k else loss in
  let trained := backward (model st) loss in
  let st' :=
    if (Z.of_nat step + 1) mod k =? 0 then
      {| model := zero_grad (optimizer_step (optimizer st) trained).2;
         optimizer := (optimizer_step (optimizer st) trained).1;
         scheduler := scheduler_step (scheduler st);
         tr_loss := loss_add (tr_loss st) loss;
         global_step := global_step st + 1;
         nb_tr_steps := nb_tr_steps st + 1 |}
    else
      {| model := trained;
         optimizer := optimizer st;
         scheduler := scheduler st;
         tr_loss := loss_add (tr_loss st) loss;
         global_step := global_step st;
         nb_tr_steps := nb_tr_steps st + 1 |} in
  train_batch args n_gpu epoch step batch st d =
    (EvForwardBackward epoch step ::
     (if (Z.of_nat step + 1) mod k =? 0
      then [EvOptimizerStep; EvSchedulerStep; EvZeroGrad] else []) ++
     [EvTorchSave (checkpoint_dict epoch st')],
     Some (<[PATH := FCheckpoint (checkpoint_dict epoch st')]> (default ∅ d)),
     inr st').
Proof.
  unfold train_batch, save_checkpoint, write_file, bind, emit, ret, get_dir, put_dir.
  simpl.
  destruct ((Z.of_nat step + 1) mod gradient_accumulation_steps args =? 0);
    [destruct (optimizer_step _ _) as [o m]|]; reflexivity.
Qed.

(** A quantity of the training state that goes up by one on a boundary
    batch and stays on the others has gone up, after the batches of a loop
    that returns, by the number of boundaries among them. *)
Lemma epoch_loop_tally args env n_gpu epoch (l : list Batch) (tally : TrainState -> Z) :
  (forall step batch st d st',
     result (train_batch args n_gpu epoch step batch st d) = inr st' ->
     tally st' = tally st +
       (if (Z.of_nat step + 1) mod gradient_accumulation_steps args =? 0 then 1 else 0)) ->
  1 <= gradient_accumulation_steps args ->
  forall (i : nat) st d evs d' st',
    for_each (train_step args env n_gpu epoch) i l st d = (evs, d', inr st') ->
    tally st' = tally st +
      ((Z.of_nat i + Z.of_nat (length l)) / gradient_accumulation_steps args
       - Z.of_nat i / gradient_accumulation_steps args).
Proof.
  intros Hbatch Hk.
  induction l as [|batch l IH]; intros i st d evs d' st' Hrun; simpl in Hrun.
  - injection Hrun as <- <- <-. simpl. rewrite Z.add_0_r, Z.sub_diag. lia.
  - apply bind_returns in Hrun as (e1 & d1 & st1 & e2 & Hstep & Hrest & ->).
    apply train_step_returns in Hstep as (dt & ev_eval & Hb & _ & _).
    apply (f_equal result) in Hb. unfold result at 2 in Hb. simpl snd in Hb.
    apply Hbatch in Hb. apply IH in Hrest.
    pose proof (boundary_div (gradient_accumulation_steps args) (Z.of_nat i) Hk ltac:(lia)) as Hdiv.
    simpl length.
    replace (Z.of_nat i + Z.of_nat (S (length l))) with
      (Z.of_nat (S i) + Z.of_nat (length l)) by lia.
    replace (Z.of_nat (S i)) with (Z.of_nat i + 1) in * by lia.
    lia.
Qed.

Local Ltac batch_tally :=
  let E := fresh in
  intros ? ? ? ? ?; rewrite train_batch_state; unfold result; simpl snd;
  intros E; injection E as <-;
  destruct (_ =? 0); simpl; rewrite ?Z.add_0_r; congruence.

(** C4: with [gradient_accumulation_steps = k >= 1], an epoch that
    processes its [N] batches takes [N / k] optimizer steps, with as many
    scheduler steps, gradient clearings and increments of [global_step]:
    so many are announced in the trace, and whatever counts the calls of
    [optimizer_step] in the optimizer, of [scheduler_step] in the scheduler
    and of [zero_grad] in the model has gone up by [N / k] in the state the
    epoch returns.  Within a batch these happen exactly when
    [(step + 1) % k == 0], that is after every [k]-th batch: the state
    after the batch is then the one in which the optimizer has stepped on
    the model with the new gradients, the scheduler has stepped and the
    gradients are cleared, and otherwise the one in which only the
    gradients were added; that state is what the checkpoint holds. *)
Theorem optimizer_steps_every_kth_batch
    args env n_gpu train_batch_size' i epoch st d evs d' st' :
  1 <= gradient_accumulation_steps args ->
  train_epoch args env n_gpu train_batch_size' i epoch st d = (evs, d', inr st') ->
  let N := Z.of_nat (length (train_dataloader env train_batch_size' epoch)) in
  let k := gradient_accumulation_steps args in
  Z.of_nat (count is_forward_backward evs) = N /\
  Z.of_nat (count is_optimizer_step evs) = N / k /\
  Z.of_nat (count is_scheduler_step evs) = N / k /\
  Z.of_nat (count is_zero_grad evs) = N / k /\
  global_step st' = global_step st + N / k /\
  (forall opt_steps : Optimizer -> Z,
     (forall o m, opt_steps (optimizer_step o m).1 = opt_steps o + 1) ->
     opt_steps (optimizer st') = opt_steps (optimizer st) + N / k) /\
  (forall sched_steps : Scheduler -> Z,
     (forall s, sched_steps (scheduler_step s) = sched_steps s + 1) ->
     sched_steps (scheduler st') = sched_steps (scheduler st) + N / k) /\
  (forall clears : Model -> Z,
     (forall m, clears (zero_grad m) = clears m + 1) ->
     (forall m l, clears (backward m l) = clears m) ->
     (forall o m, clears (optimizer_step o m).2 = clears m) ->
     clears (model st') = clears (model st) + N / k) /\
  forall step batch st0 d0,
    let loss := model_loss (model st0) batch in
    let loss := if 1 <? n_gpu then loss_mean loss else loss in
    let loss := if 1 <? k then loss_div loss k else loss in
    let trained := backward (model st0) loss in
    let st1 :=
      if (Z.of_nat step + 1) mod k =? 0 then
        {| model := zero_grad (optimizer_step (optimizer st0) trained).2;
           optimizer := (optimizer_step (optimizer st0) trained).1;
           scheduler := scheduler_step (scheduler st0);
           tr_loss := loss_add (tr_loss st0) loss;
           global_step := global_step st0 + 1;
           nb_tr_steps := nb_tr_steps st0 + 1 |}
      else
        {| model := trained;
           optimizer := optimizer st0;
           scheduler := scheduler st0;
           tr_loss := loss_add (tr_loss st0) loss;
           global_step := global_step st0;
           nb_tr_steps := nb_tr_steps st0 + 1 |} in
    train_batch args n_gpu epoch step batch st0 d0 =
      (EvForwardBackward epoch step ::
       (if (Z.of_nat step + 1) mod k =? 0
        then [EvOptimizerStep; EvSchedulerStep; EvZeroGrad] else []) ++
       [EvTorchSave (checkpoint_dict epoch st1)],
       Some (<[PATH := FCheckpoint (checkpoint_dict epoch st1)]> (default ∅ d0)),
       inr st1).
Proof.
  intros Hk Hrun N k. unfold train_epoch in Hrun.
  pose proof (epoch_loop_returns _ _ _ _ _ Hk _ _ _ _ _ _ Hrun) as (Ho & Hs & Hz & Hg & Hf & _).
  simpl in Ho, Hs, Hz, Hg. rewrite Z.div_0_l, Z.sub_0_r in * by lia.
  split_and!; try done; [subst N; lia| | | |].
  - intros opt_steps Hopt.
    pose proof (epoch_loop_tally args env n_gpu epoch (train_dataloader env train_batch_size' epoch) (fun st => opt_steps (optimizer st))) as Ht.
    simpl in Ht. rewrite (Ht ltac:(batch_tally) Hk _ _ _ _ _ _ Hrun).
    simpl. rewrite Z.div_0_l, Z.sub_0_r by lia. reflexivity.
  - intros sched_steps Hsched.
    pose proof (epoch_loop_tally args env n_gpu epoch (train_dataloader env train_batch_size' epoch) (fun st => sched_steps (scheduler st))) as Ht.
    simpl in Ht. rewrite (Ht ltac:(batch_tally) Hk _ _ _ _ _ _ Hrun).
    simpl. rewrite Z.div_0_l, Z.sub_0_r by lia. reflexivity.
  - intros clears Hzero Hback Hopt.
    pose proof (epoch_loop_tally args env n_gpu epoch (train_dataloader env train_batch_size' epoch) (fun st => clears (model st))) as Ht.
    simpl in Ht. rewrite (Ht ltac:(batch_tally) Hk _ _ _ _ _ _ Hrun).
    simpl. rewrite Z.div_0_l, Z.sub_0_r by lia. reflexivity.
  - intros step batch st0 d0. apply train_batch_state.
Qed.

(** C5: every processed batch, whether or not the optimizer stepped on it,
    ends with [torch.save] of a dictionary with exactly the keys [epoch],
    [model_state_dict], [optimizer_state_dict], [loss] and [scheduler],
    holding the current epoch and the state after the batch; it is written
    to the one path [PATH], replacing what was there.  In every run of an
    epoch the checkpoints written are as many as the batches trained. *)
Theorem checkpoint_written_after_every_batch :
  (forall args n_gpu epoch step batch st d,
     exists st' before,
       train_batch args n_gpu epoch step batch st d =
         (before ++ [EvTorchSave (checkpoint_dict epoch st')],
          Some (<[PATH := FCheckpoint (checkpoint_dict epoch st')]> (default ∅ d)),
          inr st') /\
       count is_torch_save before = 0%nat /\
       read_file PATH (final_dir (train_batch args n_gpu epoch step batch st d)) =
         Some (FCheckpoint (checkpoint_dict epoch st')) /\
       dom (checkpoint_dict epoch st') =
         ({["epoch"; "model_state_dict"; "optimizer_state_dict"; "loss"; "scheduler"]}
            : gset string) /\
       checkpoint_dict epoch st' !! "epoch" = Some (VInt epoch) /\
       checkpoint_dict epoch st' !! "model_state_dict" = Some (VModel (model st')) /\
       checkpoint_dict epoch st' !! "optimizer_state_dict" = Some (VOptimizer (optimizer st')) /\
       checkpoint_dict epoch st' !! "scheduler" = Some (VScheduler (scheduler st')) /\
       checkpoint_dict epoch st' !! "loss" = Some (VLoss (tr_loss st'))) /\
  (forall args env n_gpu train_batch_size' i epoch st d,
     count is_torch_save (events (train_epoch args env n_gpu train_batch_size' i epoch st d)) =
     count is_forward_backward (events (train_epoch args env n_gpu train_batch_size' i epoch st d))).
Proof.
  split.
  - intros args n_gpu epoch step batch st d.
    destruct (train_batch_run args n_gpu epoch step batch st d) as (st' & Hb & _).
    exists st'. eexists (_ :: _). rewrite Hb. split_and!.
    + reflexivity.
    + rewrite count_cons. by destruct (_ =? 0).
    + unfold final_dir, read_file. simpl. apply lookup_insert_eq.
    + apply checkpoint_dict_dom.
    + reflexivity.
    + reflexivity.
    + reflexivity.
    + reflexivity.
    + reflexivity.
  - intros args env n_gpu train_batch_size' i epoch st d. unfold train_epoch.
    apply (all_runs_for_each
             (fun l => count is_torch_save l = count is_forward_backward l)).
    intros. apply train_step_saves.
Qed.

Lemma sum_over_cons (f : Z -> Z) (x : Z) (l : list Z) :
  sum_over f (x :: l) = f x + sum_over f l.
Proof. reflexivity. Qed.

(** The epochs of a training loop that returns, as counts. *)
Lemma epochs_loop_returns args env n_gpu b (epochs : list Z) :
  1 <= gradient_accumulation_steps args ->
  forall (i : nat) st d evs d' st',
    for_each (train_epoch args env n_gpu b) i epochs st d = (evs, d', inr st') ->
    Z.of_nat (count is_forward_backward evs) =
      sum_over (fun e => Z.of_nat (length (train_dataloader env b e))) epochs /\
    Z.of_nat (count is_optimizer_step evs) =
      sum_over (fun e => Z.of_nat (length (train_dataloader env b e)) /
                         gradient_accumulation_steps args) epochs /\
    global_step st' =
      global_step st +
      sum_over (fun e => Z.of_nat (length (train_dataloader env b e)) /
                         gradient_accumulation_steps args) epochs /\
    count is_torch_save evs = count is_forward_backward evs.
Proof.
  intros Hk. induction epochs as [|epoch epochs IH]; intros i st d evs d' st' Hrun;
    simpl in Hrun.
  - injection Hrun as <- <- <-. simpl. split_and!; try reflexivity; lia.
  - apply bind_returns in Hrun as (e1 & d1 & st1 & e2 & Hepoch & Hrest & ->).
    unfold train_epoch in Hepoch.
    apply epoch_loop_returns in Hepoch as (Ho & _ & _ & Hg & Hf & Hs); [|done].
    cbv zeta in Ho, Hg. change (Z.of_nat 0) with 0 in Ho, Hg.
    rewrite Z.add_0_l, Z.div_0_l, Z.sub_0_r in Ho, Hg by lia.
    cbn [global_step] in Hg.
    apply IH in Hrest as (Hf' & Ho' & Hg' & Hs').
    rewrite !count_app, !sum_over_cons. split_and!; lia.
Qed.

End Training.

Import Samples.

Lemma optimizer_steps_every_kth_batch_witness :
  let r := train_epoch (H := tallying_torch)
             (sample_args true true false "test" (-1) 32 3)
             (sample_env 10 0) 1 10 0 0 fresh_state None in
  1 <= 3 /\
  Z.of_nat (count is_optimizer_step (events r)) = 10 / 3 /\
  result r = inr {| model := 3%nat; optimizer := 3%nat; scheduler := 3%nat;
                    tr_loss := tt; global_step := 3; nb_tr_steps := 10 |} /\
  Z.of_nat 3 = Z.of_nat (optimizer fresh_state) + 10 / 3 /\
  Z.of_nat 3 = Z.of_nat (scheduler fresh_state) + 10 / 3 /\
  Z.of_nat 3 = Z.of_nat (model fresh_state) + 10 / 3.
Proof.
  intros r.
  assert (Hr : r = (events r, final_dir r,
                    inr {| model := 3%nat; optimizer := 3%nat; scheduler := 3%nat;
                           tr_loss := tt; global_step := 3; nb_tr_steps := 10 |}))
    by (vm_compute; reflexivity).
  pose proof (optimizer_steps_every_kth_batch (Torch0 := tallying_torch)
                (sample_args true true false "test" (-1) 32 3) (sample_env 10 0)
                1 10 0%nat 0 fresh_state None _ _ _
                ltac:(simpl; lia) Hr) as (_ & Ho & _ & _ & _ & Hopt & Hsched & Hclears & _).
  split_and!.
  - lia.
  - exact Ho.
  - rewrite Hr at 1. reflexivity.
  - apply (Hopt Z.of_nat). simpl. lia.
  - apply (Hsched Z.of_nat). simpl. lia.
  - apply (Hclears Z.of_nat); simpl; lia.
Defined.

End TrainingFacts.

(** ** The start-up of [main] *)

Module StartupFacts.
Import LabelMap Decode Driver Reading DriverFacts TrainingFacts.

Section Startup.
Context {Model Optimizer Scheduler Loss Tensors : Type}.
Context `{!Torch Model Optimizer Scheduler Loss Tensors}.

Abbreviation M := (@M Model Optimizer Scheduler Loss).
Abbreviation Event := (Event Model Optimizer Scheduler Loss).
Abbreviation Dir := (Dir Model Optimizer Scheduler Loss).
Abbreviation File := (File Model Optimizer Scheduler Loss).
Abbreviation TrainState := (TrainState Model Optimizer Scheduler Loss).
Abbreviation Env := (Env Model Optimizer Scheduler Tensors).
Abbreviation Batch := (Batch Tensors).

Implicit Types (args : Args) (env : Env) (d : Dir) (st : TrainState).

(** Device set-up always returns and leaves the output directory alone. *)
Lemma setup_device_run args env d :
  exists n_gpu,
    setup_device args env d = (events (setup_device args env d), d, inr n_gpu).
Proof.
  unfold setup_device. destruct (_ || _); by eexists.
Qed.

(** The start-up checks, one case per outcome. *)
Lemma preflight_unfold args d :
  preflight args d =
  let makedirs : list Event := if dir_exists d then [] else [EvMakeDirs] in
  if gradient_accumulation_steps args <? 1 then
    ([], d, inl (InvalidGradAccum (gradient_accumulation_steps args)))
  else if negb (do_train args) && negb (do_eval args) then
    ([EvSeed], d, inl NoTrainNoEval)
  else if dir_exists d && nonempty (listdir d) && do_train args then
    ([EvSeed], d, inl OutputDirNotEmpty)
  else if negb (in_processors (lower (task_name args))) then
    (EvSeed :: makedirs, Some (default ∅ d), inl (TaskNotFound (lower (task_name args))))
  else
    (EvSeed :: makedirs, Some (default ∅ d),
     inr (train_batch_size args / gradient_accumulation_steps args)).
Proof.
  unfold preflight, raise_if, bind, emit, ret, raise, get_dir, put_dir.
  destruct (gradient_accumulation_steps args <? 1); [done|].
  destruct (negb (do_train args) && negb (do_eval args)); [done|].
  destruct d as [files|]; simpl.
  - destruct (nonempty _ && do_train args); [done|]. simpl.
    by destruct (negb (in_processors _)).
  - by destruct (negb (in_processors _)).
Qed.

(** A file in the output directory makes its listing non-empty. *)
Lemma listdir_nonempty d name (f : File) :
  read_file name d = Some f -> dir_exists d && nonempty (listdir d) = true.
Proof.
  destruct d as [files|]; [|done]. simpl. intros Hf.
  destruct (map_to_list files) as [|kv l] eqn:Hl; [|done].
  apply map_to_list_empty_iff in Hl. subst files. by rewrite lookup_empty in Hf.
Qed.

(** The checkpoint is loaded exactly when the file exists, whatever the
    mode of the run; the output directory is left as it is. *)
Lemma load_checkpoint_run st d :
  events (load_checkpoint st d) =
    match read_file PATH d with Some _ => [EvTorchLoad] | None => [] end /\
  final_dir (load_checkpoint st d) = d /\
  (read_file PATH d = None -> result (load_checkpoint st d) = inr (st, 0)) /\
  result (load_checkpoint st d) <> inl EvalOnInvalid.
Proof.
  unfold load_checkpoint, bind, get_dir, emit, ret, raise, events, final_dir, result.
  simpl. destruct (read_file PATH d) as [f|]; simpl; [|done].
  destruct f as [c| | |]; simpl; try done.
  repeat case_match; simplify_eq; simpl; split_and!; done.
Qed.


(** A failing start-up check ends [main] right after the device set-up. *)
Lemma main_preflight_error args env d ev d' e :
  preflight args d = (ev, d', inl e) ->
  main args env d = (events (setup_device args env d) ++ ev, d', inl e).
Proof.
  intros Hpf. unfold main.
  destruct (setup_device_run args env d) as (n_gpu & Hs).
  rewrite (bind_inr _ _ _ _ _ _ Hs).
  by rewrite (bind_inl _ _ _ _ _ _ Hpf).
Qed.

(** Past the start-up checks. *)
Lemma main_preflight_ok args env d ev d' b :
  preflight args d = (ev, d', inr b) ->
  exists n_gpu,
    let rest := bind (prepare args env b)
                  (fun st => bind (load_checkpoint st) (run_modes args env n_gpu b)) in
    main args env d =
      (events (setup_device args env d) ++ ev ++ events (rest d'),
       final_dir (rest d'), result (rest d')).
Proof.
  intros Hpf. unfold main.
  destruct (setup_device_run args env d) as (n_gpu & Hs). exists n_gpu.
  rewrite (bind_inr _ _ _ _ _ _ Hs).
  rewrite (bind_inr _ _ _ _ _ _ Hpf). reflexivity.
Qed.

(** The preparation of the model: it raises no evaluation error, leaves the
    output directory alone and, when it returns, has loaded the model. *)
Lemma prepare_run args env b d :
  final_dir (prepare args env b d) = d /\
  result (prepare args env b d) <> inl EvalOnInvalid /\
  (forall st, result (prepare args env b d) = inr st ->
              EvFromPretrained ∈ events (prepare args env b d)) /\
  (in_MODEL_CLASSES (model_type args) = true ->
   (do_train args && (b =? 0)) = false ->
   (fp16 args && negb (apex_installed env)) = false ->
   exists st, result (prepare args env b d) = inr st).
Proof.
  unfold prepare, raise_if, bind, emit, ret, raise, events, final_dir, result.
  destruct (in_MODEL_CLASSES _); simpl; [|done].
  destruct (do_train args); simpl.
  - destruct (b =? 0); simpl; [done|].
    repeat case_match; simplify_eq; simpl; split_and!; try done;
      try (intros; set_solver); eauto.
  - repeat case_match; simplify_eq; simpl; split_and!; try done;
      try (intros; set_solver); eauto.
Qed.


Lemma preflight_no_eval_error args d :
  result (preflight args d) <> inl EvalOnInvalid.
Proof. rewrite preflight_unfold. cbv zeta. by repeat case_match. Qed.

Lemma setup_device_events args env d :
  events (setup_device args env d) =
  if (local_rank args =? -1) || no_cuda args
  then [EvQueryDevice] else [EvSetDevice; EvInitProcessGroup].
Proof. unfold setup_device. by destruct (_ || _). Qed.

(** C3 (what the code does instead): a training run that finds a checkpoint
    in its output directory does not resume: the check of line 176 on the
    non-empty output directory ends the run before the checkpoint is
    looked at.  Whatever [tr_loss] a loaded checkpoint would give is,
    besides, reset at the start of an epoch. *)
Theorem resume_is_stopped_by_output_dir_check args env d (f : File) :
  read_file PATH d = Some f ->
  do_train args = true ->
  1 <= gradient_accumulation_steps args ->
  main args env d =
    (events (setup_device args env d) ++ [EvSeed], d, inl OutputDirNotEmpty) /\
  forall n_gpu b i epoch st l steps,
    train_epoch args env n_gpu b i epoch st =
    train_epoch args env n_gpu b i epoch
      {| model := model st; optimizer := optimizer st; scheduler := scheduler st;
         tr_loss := l; global_step := global_step st; nb_tr_steps := steps |}.
Proof.
  intros Hf Ht Hk. split; [|done].
  apply main_preflight_error. rewrite preflight_unfold. cbv zeta.
  rewrite (proj2 (Z.ltb_ge _ _) Hk), Ht, (listdir_nonempty _ _ _ Hf). done.
Qed.


(** *** Properties of the whole trace *)


Lemma all_runs_bind_result (P : list Event -> Prop) `{!Additive P}
    {A B : Type} (m : M A) (f : A -> M B) :
  all_runs P m ->
  (forall d a, result (m d) = inr a -> P (events (f a (final_dir (m d))))) ->
  all_runs P (bind m f).
Proof.
  intros Hm Hf d. rewrite events_bind. apply additive_app; [apply Hm|].
  destruct (result (m d)) eqn:Hr; [apply additive_nil|by apply Hf].
Qed.





(** A process that is not the main one runs no evaluation. *)
Lemma other_rank_no_evaluation args env n_gpu b restored :
  is_main_process args env = false ->
  all_runs (fun l : list Event => count is_evaluation_event l = 0%nat)
    (run_modes args env n_gpu b restored).
Proof.
  intros Hmain.
  unfold run_modes, train, train_epoch, train_step, train_batch, save_checkpoint,
    load_trained.
  rewrite Hmain, !andb_false_r. cbv zeta. all_runs_with ltac:(reflexivity).
Qed.

(** The training data loader is built with the batch size handed to
    [run_modes]. *)
#[local] Instance batch_size_additive (b : Z) :
  Additive (fun l : list Event => forall b', EvTrainDataLoader b' ∈ l -> b' = b).
Proof.
  split; [by intros b' ?%elem_of_nil|].
  intros l1 l2 H1 H2 b' [?|?]%elem_of_app; auto.
Qed.

Lemma run_modes_batch_size args env n_gpu b restored :
  all_runs (fun l : list Event => forall b', EvTrainDataLoader b' ∈ l -> b' = b)
    (run_modes args env n_gpu b restored).
Proof.
  unfold run_modes, train, train_epoch, train_step, train_batch, save_checkpoint,
    load_trained, evaluate, eval_step.
  cbv zeta. all_runs_with ltac:(intros ? ?%list_elem_of_singleton; congruence).
Qed.


Lemma setup_device_all_runs (P : list Event -> Prop) `{!Additive P} args env :
  P [EvQueryDevice] -> P [EvSetDevice] -> P [EvInitProcessGroup] ->
  all_runs P (setup_device args env).
Proof. intros. unfold setup_device. all_runs_with ltac:(assumption). Qed.

Lemma preflight_all_runs (P : list Event -> Prop) `{!Additive P} args :
  P [EvSeed] -> P [EvMakeDirs] -> all_runs P (preflight args).
Proof. intros. unfold preflight. all_runs_with ltac:(assumption). Qed.

Lemma prepare_all_runs (P : list Event -> Prop) `{!Additive P} args env b :
  P [EvFromPretrained] -> (forall split, P [EvReadExamples split]) -> P [EvBarrier] ->
  all_runs P (prepare args env b).
Proof. intros. unfold prepare. all_runs_with ltac:(auto). Qed.

Lemma load_checkpoint_all_runs (P : list Event -> Prop) `{!Additive P} st :
  P [EvTorchLoad] -> all_runs P (load_checkpoint st).
Proof.
  intros Hl d. destruct (load_checkpoint_run st d) as (-> & _).
  destruct (read_file PATH d); [done|apply additive_nil].
Qed.


(** The checkpoint is looked for where the run started: the start-up checks
    at most create the output directory. *)
Lemma read_file_makedirs name d :
  read_file name (Some (default ∅ d) : Dir) = read_file name d.
Proof. by destruct d. Qed.


(** Every process checkpoints each batch it trains. *)
Lemma main_saves_every_batch args env :
  all_runs (fun l : list Event => count is_torch_save l = count is_forward_backward l)
    (main args env).
Proof.
  unfold main.
  apply all_runs_bind; [tc_solve|apply setup_device_all_runs; try tc_solve; done|intros n_gpu].
  apply all_runs_bind; [tc_solve|apply preflight_all_runs; try tc_solve; done|intros b].
  apply all_runs_bind; [tc_solve|apply prepare_all_runs; try tc_solve; done|intros st].
  apply all_runs_bind; [tc_solve|apply load_checkpoint_all_runs; try tc_solve; done|intros [st' e]].
  unfold run_modes, train, load_trained.
  apply all_runs_bind; [tc_solve| |intros st''].
  - destruct (do_train args).
    + apply all_runs_bind; [tc_solve|apply all_runs_emit; reflexivity|intros _].
      apply all_runs_bind; [tc_solve|apply all_runs_emit; reflexivity|intros _].
      apply all_runs_bind; [tc_solve| |intros; all_runs_with ltac:(reflexivity)].
      apply all_runs_for_each; [tc_solve|]. intros i epoch st0.
      unfold train_epoch. apply all_runs_for_each; [tc_solve|].
      intros. apply train_step_saves.
    + all_runs_with ltac:(reflexivity).
  - destruct (_ && _); [|apply all_runs_ret; tc_solve].
    apply evaluate_all_runs; try tc_solve; done.
Qed.

(** C6 (as the code has it): in distributed mode a process whose rank is
    not 0 runs no evaluation and writes no evaluation report; the
    checkpoint is outside this guard: a process of any rank writes it after
    each batch it trains. *)
Theorem other_ranks_write_no_report args env d :
  local_rank args <> -1 ->
  rank env <> 0 ->
  count is_write_report (events (main args env d)) = 0%nat /\
  count is_inference (events (main args env d)) = 0%nat /\
  count is_torch_save (events (main args env d)) =
    count is_forward_backward (events (main args env d)).
Proof.
  intros Hlocal Hrank.
  assert (Hmain : is_main_process args env = false).
  { unfold is_main_process.
    by rewrite (proj2 (Z.eqb_neq _ _) Hlocal), (proj2 (Z.eqb_neq _ _) Hrank). }
  assert (Hquiet : count is_evaluation_event (events (main args env d)) = 0%nat).
  { revert d. change (all_runs (fun l : list Event => count is_evaluation_event l = 0%nat)
                        (main args env)).
    unfold main.
    apply all_runs_bind; [tc_solve|apply setup_device_all_runs; try tc_solve; done|intros n_gpu].
    apply all_runs_bind; [tc_solve|apply preflight_all_runs; try tc_solve; done|intros b].
    apply all_runs_bind; [tc_solve|apply prepare_all_runs; try tc_solve; done|intros st].
    apply all_runs_bind; [tc_solve|apply load_checkpoint_all_runs; try tc_solve; done|intros r].
    by apply other_rank_no_evaluation. }
  split_and!.
  - revert Hquiet. apply count_zero_mono. intros e He.
    unfold is_evaluation_event. by rewrite He, orb_true_r.
  - revert Hquiet. apply count_zero_mono. intros e He.
    unfold is_evaluation_event. by rewrite He.
  - apply main_saves_every_batch.
Qed.

Lemma preflight_result args d b :
  result (preflight args d) = inr b ->
  b = train_batch_size args / gradient_accumulation_steps args /\
  1 <= gradient_accumulation_steps args /\
  events (preflight args d) = EvSeed :: (if dir_exists d then [] else [EvMakeDirs]).
Proof.
  rewrite preflight_unfold. cbv zeta.
  destruct (Z.ltb_spec (gradient_accumulation_steps args) 1); [done|].
  repeat case_match; try done; intros [= <-]; done.
Qed.

(** An evaluation with an [eval_on] that is neither ["dev"] nor ["test"]
    raises before it does anything. *)
Lemma evaluate_eval_on_invalid args env m report d :
  String.eqb (eval_on args) "dev" = false ->
  String.eqb (eval_on args) "test" = false ->
  evaluate args env m report d = ([], d, inl EvalOnInvalid).
Proof. intros Hdev Htest. unfold evaluate. by rewrite Hdev, Htest. Qed.

(** With the evaluation in the loop, such an [eval_on] ends the run in the
    first batch that is trained, once its checkpoint is written. *)
Lemma train_step_eval_on_invalid args env n_gpu epoch step (batch : Batch) st d :
  String.eqb (eval_on args) "dev" = false ->
  String.eqb (eval_on args) "test" = false ->
  do_eval args && eval_every_epoch args && is_main_process args env = true ->
  let r := train_step args env n_gpu epoch step batch st d in
  result r = inl EvalOnInvalid /\
  count is_forward_backward (events r) = 1%nat /\
  count is_torch_save (events r) = 1%nat /\
  count is_save_pretrained (events r) = 0%nat /\
  is_Some (read_file PATH (final_dir r)).
Proof.
  intros Hdev Htest Hguard. cbv zeta. unfold train_step.
  rewrite (bind_inr _ _ _ _ _ _ (train_batch_state args n_gpu epoch step batch st d)).
  rewrite Hguard.
  match goal with |- context [bind (evaluate ?a ?e ?m ?r) ?f ?d0] =>
    rewrite (bind_inl (evaluate a e m r) f d0 _ _ _
               (evaluate_eval_on_invalid a e m r d0 Hdev Htest))
  end.
  unfold result, events, final_dir, read_file. simpl.
  rewrite app_nil_r, count_cons, !count_cons, !count_app.
  split_and!; [done| | | |by rewrite lookup_insert_eq];
    by destruct (_ =? 0).
Qed.

Lemma epochs_loop_eval_on_invalid args env n_gpu b (epochs : list Z) :
  String.eqb (eval_on args) "dev" = false ->
  String.eqb (eval_on args) "test" = false ->
  do_eval args && eval_every_epoch args && is_main_process args env = true ->
  forall (i : nat) st d,
    let r := for_each (train_epoch args env n_gpu b) i epochs st d in
    (exists st', r = ([], d, inr st')) \/
    (result r = inl EvalOnInvalid /\
     count is_forward_backward (events r) = 1%nat /\
     count is_torch_save (events r) = 1%nat /\
     count is_save_pretrained (events r) = 0%nat /\
     is_Some (read_file PATH (final_dir r))).
Proof.
  intros Hdev Htest Hguard.
  induction epochs as [|epoch epochs IH]; intros i st d; cbv zeta.
  - left. by eexists.
  - destruct (train_dataloader env b epoch) as [|batch batches] eqn:Hdl.
    + assert (Heq : for_each (train_epoch args env n_gpu b) i (epoch :: epochs) st d =
                    for_each (train_epoch args env n_gpu b) (S i) epochs
                      {| model := model st; optimizer := optimizer st;
                         scheduler := scheduler st; tr_loss := loss_zero;
                         global_step := global_step st; nb_tr_steps := 0 |} d).
      { simpl. unfold train_epoch at 1. rewrite Hdl. simpl. unfold bind, ret.
        by destruct (for_each _ _ _ _ _) as [[? ?] ?]. }
      rewrite Heq. apply IH.
    + right.
      pose proof (train_step_eval_on_invalid args env n_gpu epoch 0 batch
                    {| model := model st; optimizer := optimizer st;
                       scheduler := scheduler st; tr_loss := loss_zero;
                       global_step := global_step st; nb_tr_steps := 0 |} d
                    Hdev Htest Hguard) as Hstep.
      cbv zeta in Hstep. destruct Hstep as (Hres & Hrest).
      match type of Hres with result ?r = _ =>
        assert (Hr : r = (events r, final_dir r, inl EvalOnInvalid))
          by (rewrite <- Hres; apply run_eta);
        assert (Heq : for_each (train_epoch args env n_gpu b) i (epoch :: epochs) st d = r)
      end.
      { simpl for_each. unfold train_epoch at 1. rewrite Hdl. simpl for_each.
        rewrite (bind_inl _ _ _ _ _ _ (bind_inl _ _ _ _ _ _ Hr)). by rewrite <- Hr. }
      rewrite Heq. done.
Qed.

(** The same for the whole of what follows the checkpoint load, in a
    training run: the run ends with the error, either in the first batch
    it trains or, when it trains none, at the final evaluation. *)
Lemma run_modes_eval_on_invalid args env n_gpu b restored d :
  String.eqb (eval_on args) "dev" = false ->
  String.eqb (eval_on args) "test" = false ->
  do_train args = true ->
  do_eval args && eval_every_epoch args && is_main_process args env = true ->
  let r := run_modes args env n_gpu b restored d in
  result r = inl EvalOnInvalid /\
  ((count is_forward_backward (events r) = 1%nat /\
    count is_torch_save (events r) = 1%nat /\
    count is_save_pretrained (events r) = 0%nat /\
    is_Some (read_file PATH (final_dir r))) \/
   (count is_forward_backward (events r) = 0%nat /\
    count is_torch_save (events r) = 0%nat /\
    count is_save_pretrained (events r) = 1%nat)).
Proof.
  intros Hdev Htest Ht Hguard. destruct restored as [st start_epoch]. cbv zeta.
  unfold run_modes. rewrite Ht.
  assert (Hfinal : do_eval args && is_main_process args env = true).
  { destruct (do_eval args), (is_main_process args env); try done.
    by rewrite andb_false_r in Hguard. }
  rewrite Hfinal.
  destruct (epochs_loop_eval_on_invalid args env n_gpu b
              (seqZ start_epoch (num_train_epochs args - start_epoch))
              Hdev Htest Hguard 0%nat st d) as [(st' & Hloop)|(Hres & Hfb & Hsave & Hsp & Hfile)].
  - (* no batch is trained *)
    assert (Htrain : train args env n_gpu b start_epoch st d =
              ([EvConvertFeatures "train"; EvTrainDataLoader b;
                EvSavePretrained; EvWriteModelConfig],
               final_dir (train args env n_gpu b start_epoch st d), inr st')).
    { unfold train, write_file, bind, emit, ret, get_dir, put_dir in *.
      simpl. rewrite Hloop. reflexivity. }
    rewrite (bind_inr _ _ _ _ _ _ Htrain).
    rewrite (evaluate_eval_on_invalid _ _ _ _ _ Hdev Htest).
    split; [done|right]. by vm_compute.
  - (* the first batch that is trained *)
    match type of Hres with result ?r = _ =>
      assert (Hr : r = (events r, final_dir r, inl EvalOnInvalid))
        by (rewrite <- Hres; apply run_eta);
      set (loop := r) in * end.
    assert (Htrain : train args env n_gpu b start_epoch st d =
              (EvConvertFeatures "train" :: EvTrainDataLoader b :: events loop,
               final_dir loop, inl EvalOnInvalid)).
    { unfold train. unfold bind at 1 2 3. unfold emit at 1 2. simpl.
      fold loop. rewrite Hr. reflexivity. }
    rewrite (bind_inl _ _ _ _ _ _ Htrain).
    split; [done|left].
    change (events (?e, ?d0, ?r)) with e. change (final_dir (?e, ?d0, ?r)) with d0.
    rewrite !count_cons. simpl. by rewrite Hfb, Hsave, Hsp.
Qed.

(** A run that ends with the [eval_on] error has come to the part after
    the checkpoint load, and has neither trained nor saved before it. *)
Lemma main_reaches_run_modes args env d :
  result (main args env d) = inl EvalOnInvalid ->
  exists n_gpu b restored d0 before,
    main args env d =
      (before ++ events (run_modes args env n_gpu b restored d0),
       final_dir (run_modes args env n_gpu b restored d0),
       result (run_modes args env n_gpu b restored d0)) /\
    count is_forward_backward before = 0%nat /\
    count is_torch_save before = 0%nat /\
    count is_save_pretrained before = 0%nat.
Proof.
  intros Hres.
  pose (P := fun l : list Event =>
               count is_forward_backward l = 0%nat /\
               count is_torch_save l = 0%nat /\
               count is_save_pretrained l = 0%nat).
  assert (HP : Additive P) by tc_solve.
  assert (Hleaf : forall e : Event,
            is_forward_backward e || is_torch_save e || is_save_pretrained e = false ->
            P [e]).
  { intros e He. unfold P. rewrite !count_cons.
    destruct (is_forward_backward e), (is_torch_save e), (is_save_pretrained e); done. }
  destruct (preflight args d) as [[ev d'] [e|b]] eqn:Hpf.
  { rewrite (main_preflight_error _ env _ _ _ _ Hpf) in Hres.
    pose proof (preflight_no_eval_error args d) as Hne.
    rewrite Hpf in Hne. unfold result in Hres, Hne. simpl in *. congruence. }
  destruct (main_preflight_ok _ env _ _ _ _ Hpf) as (n_gpu & Hmain).
  cbv zeta in Hmain. rewrite Hmain in Hres |- *. clear Hmain.
  unfold result at 1 in Hres. simpl snd in Hres.
  destruct (prepare args env b d') as [[e1 d1] [x|st]] eqn:Hprep.
  { rewrite (bind_inl _ _ _ _ _ _ Hprep) in Hres.
    destruct (prepare_run args env b d') as (_ & Hne & _).
    rewrite Hprep in Hne. unfold result in Hres, Hne. simpl in *. congruence. }
  rewrite (bind_inr _ _ _ _ _ _ Hprep) in Hres |- *.
  unfold result at 1 in Hres. simpl snd in Hres.
  change (events (?e, ?d0, ?r)) with e. change (final_dir (?e, ?d0, ?r)) with d0.
  change (result (?e, ?d0, ?r)) with r.
  destruct (load_checkpoint st d1) as [[e2 d2] [x|restored]] eqn:Hload.
  { rewrite (bind_inl _ _ _ _ _ _ Hload) in Hres.
    destruct (load_checkpoint_run st d1) as (_ & _ & _ & Hne).
    rewrite Hload in Hne. unfold result in Hres, Hne. simpl in *. congruence. }
  rewrite (bind_inr _ _ _ _ _ _ Hload).
  change (events (?e, ?d0, ?r)) with e. change (final_dir (?e, ?d0, ?r)) with d0.
  change (result (?e, ?d0, ?r)) with r.
  exists n_gpu, b, restored, d2, (events (setup_device args env d) ++ ev ++ e1 ++ e2).
  split; [by rewrite <- !app_assoc|].
  change (P (events (setup_device args env d) ++ ev ++ e1 ++ e2)).
  apply additive_app; [by apply setup_device_all_runs; auto|].
  apply additive_app.
  { pose proof (preflight_all_runs P args ltac:(auto) ltac:(auto) d) as Hq.
    by rewrite Hpf in Hq. }
  apply additive_app.
  { pose proof (prepare_all_runs P args env b ltac:(auto) ltac:(auto) ltac:(auto) d') as Hq.
    by rewrite Hprep in Hq. }
  pose proof (load_checkpoint_all_runs P st ltac:(auto) d1) as Hq.
  by rewrite Hload in Hq.
Qed.

(** C7 (as the code has it): an invalid [gradient_accumulation_steps],
    neither of [do_train] and [do_eval], a non-empty output directory with
    [do_train], and an unknown task name end the run right after the device
    set-up of lines 151-159: nothing but the seeding, and for the unknown
    task the creation of a missing output directory, has happened, and no
    file has been written.  An unknown [eval_on] is raised only once the
    model has been loaded; in a training run with [do_eval] and
    [eval_every_epoch] on the main process it is raised either right after
    the first batch that is trained has been checkpointed, no other batch
    being trained and the trained model not being saved, or, when the run
    trains no batch at all, at the final evaluation after the model has
    been saved. *)
Theorem start_up_errors args env d :
  (gradient_accumulation_steps args < 1 ->
   main args env d =
     (events (setup_device args env d), d,
      inl (InvalidGradAccum (gradient_accumulation_steps args)))) /\
  (1 <= gradient_accumulation_steps args ->
   do_train args = false -> do_eval args = false ->
   main args env d =
     (events (setup_device args env d) ++ [EvSeed], d, inl NoTrainNoEval)) /\
  (1 <= gradient_accumulation_steps args ->
   do_train args = true -> nonempty (listdir d) = true ->
   main args env d =
     (events (setup_device args env d) ++ [EvSeed], d, inl OutputDirNotEmpty)) /\
  (1 <= gradient_accumulation_steps args ->
   do_train args || do_eval args = true ->
   nonempty (listdir d) && do_train args = false ->
   in_processors (lower (task_name args)) = false ->
   main args env d =
     (events (setup_device args env d) ++
      EvSeed :: (if dir_exists d then [] else [EvMakeDirs]),
      Some (default ∅ d),
      inl (TaskNotFound (lower (task_name args))))) /\
  (result (main args env d) = inl EvalOnInvalid ->
   EvFromPretrained ∈ events (main args env d)) /\
  (result (main args env d) = inl EvalOnInvalid ->
   String.eqb (eval_on args) "dev" = false ->
   String.eqb (eval_on args) "test" = false ->
   do_train args = true ->
   do_eval args && eval_every_epoch args && is_main_process args env = true ->
   (count is_forward_backward (events (main args env d)) = 1%nat /\
    count is_torch_save (events (main args env d)) = 1%nat /\
    count is_save_pretrained (events (main args env d)) = 0%nat /\
    is_Some (read_file PATH (final_dir (main args env d)))) \/
   (count is_forward_backward (events (main args env d)) = 0%nat /\
    count is_torch_save (events (main args env d)) = 0%nat /\
    count is_save_pretrained (events (main args env d)) = 1%nat)) /\
  events (setup_device args env d) =
    (if (local_rank args =? -1) || no_cuda args
     then [EvQueryDevice] else [EvSetDevice; EvInitProcessGroup]).
Proof.
  split_and!.
  - intros Hk. rewrite <- (app_nil_r (events _)).
    apply main_preflight_error. rewrite preflight_unfold. cbv zeta.
    by rewrite (proj2 (Z.ltb_lt _ _) Hk).
  - intros Hk Ht He. apply main_preflight_error. rewrite preflight_unfold. cbv zeta.
    rewrite (proj2 (Z.ltb_ge _ _) Hk), Ht, He. done.
  - intros Hk Ht Hd. apply main_preflight_error. rewrite preflight_unfold. cbv zeta.
    rewrite (proj2 (Z.ltb_ge _ _) Hk), Ht, Hd. simpl.
    destruct d; [done|]. done.
  - intros Hk Hmode Hd Htask. apply main_preflight_error.
    rewrite preflight_unfold. cbv zeta.
    rewrite (proj2 (Z.ltb_ge _ _) Hk), Htask. simpl.
    destruct (do_train args), (do_eval args); simpl in *; try done.
    + rewrite andb_true_r in *. rewrite Hd, andb_false_r. done.
    + rewrite andb_true_r in *. rewrite Hd, andb_false_r. done.
    + rewrite andb_false_r. done.
  - intros Hres.
    destruct (preflight args d) as [[ev d'] [e|b]] eqn:Hpf.
    { rewrite (main_preflight_error _ env _ _ _ _ Hpf) in Hres.
      pose proof (preflight_no_eval_error args d) as Hne.
      rewrite Hpf in Hne. unfold result in Hres, Hne. simpl in *. congruence. }
    destruct (main_preflight_ok _ env _ _ _ _ Hpf) as (n_gpu & Hmain).
    cbv zeta in Hmain. rewrite Hmain in *. unfold result at 1 in Hres. simpl in Hres.
    unfold events at 1. simpl fst.
    destruct (prepare_run args env b d') as (_ & Hne & Hin & _).
    rewrite result_bind in Hres. rewrite events_bind.
    destruct (result (prepare args env b d')) as [e|st] eqn:Hprep; [congruence|].
    specialize (Hin st eq_refl). set_solver.
  - intros Hres Hdev Htest Ht Hguard.
    destruct (main_reaches_run_modes args env d Hres)
      as (n_gpu & b & restored & d0 & before & -> & Hfb & Hsave & Hsp).
    change (events (?e, ?d1, ?r)) with e. change (final_dir (?e, ?d1, ?r)) with d1.
    rewrite !count_app, Hfb, Hsave, Hsp. simpl.
    by destruct (run_modes_eval_on_invalid args env n_gpu b restored d0
                   Hdev Htest Ht Hguard) as (_ & H').
  - apply setup_device_events.
Qed.

(** Two computations that run alike and go on alike are alike. *)
Lemma bind_ext {A B : Type} (m1 m2 : M A) (f g : A -> M B) d :
  m1 d = m2 d ->
  (forall a, result (m2 d) = inr a -> f a (final_dir (m2 d)) = g a (final_dir (m2 d))) ->
  bind m1 f d = bind m2 g d.
Proof.
  unfold bind, result, final_dir. intros ->.
  destruct (m2 d) as [[ev d'] [e|a]]; simpl; [done|].
  intros Hfg. by rewrite Hfg.
Qed.

Lemma for_each_ext {A St : Type} (body1 body2 : nat -> A -> St -> M St) :
  (forall i x s d, body1 i x s d = body2 i x s d) ->
  forall (l : list A) i s d, for_each body1 i l s d = for_each body2 i l s d.
Proof.
  intros Hb. induction l as [|x l IH]; intros i s d; simpl; [done|].
  unfold bind. rewrite Hb. destruct (body2 i x s d) as [[ev d'] [e|s']]; [done|].
  by rewrite IH.
Qed.

(** A training that returns has trained the batches its data loader gives,
    at the batch size it was handed, for each epoch from [start_epoch]. *)
Lemma train_returns_batches args env n_gpu b start_epoch st d evs d' st' :
  1 <= gradient_accumulation_steps args ->
  train args env n_gpu b start_epoch st d = (evs, d', inr st') ->
  Z.of_nat (count is_forward_backward evs) =
    sum_over (fun e => Z.of_nat (length (train_dataloader env b e)))
      (seqZ start_epoch (num_train_epochs args - start_epoch)).
Proof.
  intros Hk Hrun. unfold train in Hrun.
  apply bind_returns in Hrun as (e1 & d1 & [] & e2 & [= <- <-] & Hrun & ->).
  apply bind_returns in Hrun as (e3 & d3 & [] & e4 & [= <- <-] & Hrun & ->).
  apply bind_returns in Hrun as (e5 & d5 & st5 & e6 & Hloop & Hrest & ->).
  apply epochs_loop_returns in Hloop as (Hf & _); [|done].
  assert (Hrest' : e6 = [EvSavePretrained; EvWriteModelConfig]).
  { unfold bind, emit, write_file, get_dir, put_dir, ret in Hrest. simpl in Hrest.
    by injection Hrest as <- _ _. }
  subst e6. rewrite !count_app, !count_cons. simpl.
  change (@count Model Optimizer Scheduler Loss ?p []) with 0%nat.
  rewrite !Nat.add_0_r. done.
Qed.

(** A training run that completes: the batches it has trained are those of
    the data loader at the divided batch size, over all the epochs. *)
Lemma main_returns_batches args env d :
  do_train args = true ->
  result (main args env d) = inr tt ->
  Z.of_nat (count is_forward_backward (events (main args env d))) =
    sum_over
      (fun e => Z.of_nat (length (train_dataloader env
                    (train_batch_size args / gradient_accumulation_steps args) e)))
      (seqZ 0 (num_train_epochs args)).
Proof.
  intros Ht Hres.
  pose (P := fun l : list Event => count is_forward_backward l = 0%nat).
  assert (HP : Additive P) by tc_solve.
  destruct (preflight args d) as [[ev d'] [e|b]] eqn:Hpf.
  { by rewrite (main_preflight_error _ env _ _ _ _ Hpf) in Hres. }
  pose proof (preflight_result args d b) as Hb. rewrite Hpf in Hb.
  destruct (Hb eq_refl) as (-> & Hk & _). clear Hb.
  assert (Hempty : read_file PATH d' = None).
  { rewrite preflight_unfold in Hpf. cbv zeta in Hpf. rewrite Ht in Hpf.
    rewrite (proj2 (Z.ltb_ge _ _) Hk) in Hpf. simpl in Hpf. rewrite andb_true_r in Hpf.
    destruct (dir_exists d && nonempty (listdir d)) eqn:Hd; [done|].
    destruct (negb _); [done|]. injection Hpf as _ <-.
    rewrite read_file_makedirs.
    destruct (read_file PATH d) as [f|] eqn:Hf; [|done].
    by rewrite (listdir_nonempty _ _ _ Hf) in Hd. }
  destruct (main_preflight_ok _ env _ _ _ _ Hpf) as (n_gpu & Hmain).
  cbv zeta in Hmain. rewrite Hmain in Hres |- *. clear Hmain.
  unfold result at 1 in Hres. simpl snd in Hres.
  change (events (?e, ?d0, ?r)) with e.
  destruct (prepare args env (train_batch_size args / gradient_accumulation_steps args) d')
    as [[e1 d1] [x|st]] eqn:Hprep.
  { by rewrite (bind_inl _ _ _ _ _ _ Hprep) in Hres. }
  rewrite (bind_inr _ _ _ _ _ _ Hprep) in Hres |- *.
  unfold result at 1 in Hres. simpl snd in Hres.
  change (events (?e, ?d0, ?r)) with e.
  assert (Hd1 : d1 = d').
  { destruct (prepare_run args env
                (train_batch_size args / gradient_accumulation_steps args) d') as (Hd & _).
    by rewrite Hprep in Hd. }
  subst d1.
  destruct (load_checkpoint_run st d') as (Hle & Hld & Hlr & _).
  rewrite Hempty in Hle. specialize (Hlr Hempty).
  assert (Hload : load_checkpoint st d' = ([], d', inr (st, 0))).
  { rewrite (run_eta (load_checkpoint st d')). by rewrite Hle, Hld, Hlr. }
  rewrite (bind_inr _ _ _ _ _ _ Hload) in Hres |- *.
  unfold result at 1 in Hres. simpl snd in Hres.
  change (events (?e, ?d0, ?r)) with e.
  unfold run_modes in Hres |- *. rewrite Ht in Hres |- *.
  destruct (train args env n_gpu
              (train_batch_size args / gradient_accumulation_steps args) 0 st d')
    as [[e2 d2] [x|st2]] eqn:Htrain.
  { by rewrite (bind_inl _ _ _ _ _ _ Htrain) in Hres. }
  rewrite (bind_inr _ _ _ _ _ _ Htrain).
  change (events (?e, ?d0, ?r)) with e.
  apply train_returns_batches in Htrain; [|done].
  rewrite Z.sub_0_r in Htrain.
  rewrite !count_app.
  assert (H0 : count is_forward_backward (events (setup_device args env d)) = 0%nat).
  { by apply (setup_device_all_runs P). }
  assert (H1 : count is_forward_backward ev = 0%nat).
  { pose proof (preflight_all_runs P args eq_refl eq_refl d) as Hq.
    by rewrite Hpf in Hq. }
  assert (H2 : count is_forward_backward e1 = 0%nat).
  { pose proof (prepare_all_runs P args env
                  (train_batch_size args / gradient_accumulation_steps args)
                  eq_refl ltac:(done) eq_refl d') as Hq.
    by rewrite Hprep in Hq. }
  assert (H3 : count is_forward_backward
                 (events ((if do_eval args && is_main_process args env
                           then evaluate args env (model st2) "test_results.txt"
                           else ret tt) d2)) = 0%nat).
  { destruct (_ && _); [|done].
    eapply count_zero_mono; [|apply evaluate_no_training].
    intros e He. unfold is_training_event. by rewrite He. }
  rewrite H0, H1, H2, H3. simpl. lia.
Qed.

(** [main] asks the training data loader for batches of no other size
    than the divided one. *)
Lemma main_loader_ext args env (f : Z -> Z -> list Batch) d :
  (forall epoch,
     f (train_batch_size args / gradient_accumulation_steps args) epoch =
     train_dataloader env (train_batch_size args / gradient_accumulation_steps args) epoch) ->
  main args (with_train_dataloader f env) d = main args env d.
Proof.
  intros Hf. unfold main.
  apply bind_ext; [reflexivity|]. intros n_gpu _.
  apply bind_ext; [reflexivity|]. intros b (-> & _ & _)%preflight_result.
  apply bind_ext; [reflexivity|]. intros st _.
  apply bind_ext; [reflexivity|]. intros [st' start_epoch] _.
  unfold run_modes.
  apply bind_ext; [|reflexivity].
  destruct (do_train args); [|reflexivity].
  unfold train.
  apply bind_ext; [reflexivity|]. intros [] _.
  apply bind_ext; [reflexivity|]. intros [] _.
  apply bind_ext; [|reflexivity].
  apply for_each_ext. intros i epoch st0 d0. unfold train_epoch.
  change (train_dataloader (with_train_dataloader f env) ?b ?e) with (f b e).
  by rewrite Hf.
Qed.
(** C9 (as the code has it): the start-up checks, which read no data, hand
    on [train_batch_size // gradient_accumulation_steps], and that is the
    batch size the training data loader is built with and asked for
    batches: a training run that completes has trained, in each of its
    epochs, the batches the loader gives at the divided size (for a
    divided size that is positive, as a data loader needs it), and [main]
    does not depend on what the loader would give at any other size.  The
    divided size is 0 when
    [0 <= train_batch_size < gradient_accumulation_steps]. *)
Theorem train_batch_size_is_divided :
  (forall args d b,
     result (preflight args d : list Event * Dir * (Exn + Z)) = inr b ->
     b = train_batch_size args / gradient_accumulation_steps args /\
     events (preflight args d : list Event * Dir * (Exn + Z)) =
       EvSeed :: (if dir_exists d then [] else [EvMakeDirs])) /\
  (forall args env d b,
     EvTrainDataLoader b ∈ events (main args env d) ->
     b = train_batch_size args / gradient_accumulation_steps args) /\
  (forall args env d,
     do_train args = true ->
     0 < train_batch_size args / gradient_accumulation_steps args ->
     result (main args env d) = inr tt ->
     Z.of_nat (count is_forward_backward (events (main args env d))) =
       sum_over
         (fun epoch =>
            Z.of_nat (length (train_dataloader env
                        (train_batch_size args / gradient_accumulation_steps args)
                        epoch)))
         (seqZ 0 (num_train_epochs args))) /\
  (forall args env (f : Z -> Z -> list Batch) d,
     (forall epoch,
        f (train_batch_size args / gradient_accumulation_steps args) epoch =
        train_dataloader env
          (train_batch_size args / gradient_accumulation_steps args) epoch) ->
     main args (with_train_dataloader f env) d = main args env d) /\
  (forall args d b,
     0 <= train_batch_size args < gradient_accumulation_steps args ->
     result (preflight args d : list Event * Dir * (Exn + Z)) = inr b ->
     b = 0).
Proof.
  split_and!.
  - intros args d b Hres. by apply preflight_result in Hres as (? & _ & ?).
  - intros args env d.
    pose (P := fun l : list Event =>
                 forall b, EvTrainDataLoader b ∈ l ->
                           b = train_batch_size args / gradient_accumulation_steps args).
    assert (HP : Additive P) by apply batch_size_additive.
    assert (Hleaf : forall e : Event, is_train_dataloader e = false -> P [e]).
    { intros e He b Hin%list_elem_of_singleton. subst e. done. }
    revert d. change (all_runs P (main args env)). unfold main.
    apply (all_runs_bind P); [by apply setup_device_all_runs; auto|intros n_gpu].
    apply (all_runs_bind_result P); [by apply preflight_all_runs; auto|].
    intros d b (-> & _ & _)%preflight_result.
    apply (all_runs_bind P); [by apply prepare_all_runs; auto|intros st].
    apply (all_runs_bind P); [by apply load_checkpoint_all_runs; auto|intros r].
    apply run_modes_batch_size.
  - intros args env d Ht _. by apply main_returns_batches.
  - intros args env f d. apply main_loader_ext.
  - intros args d b Hb Hres. apply preflight_result in Hres as (-> & _ & _).
    by apply Z.div_small.
Qed.

End Startup.
End StartupFacts.

(** ** The start-up on concrete runs *)

Module StartupRuns.
Import LabelMap Decode Driver Reading DriverFacts TrainingFacts StartupFacts Samples.



Lemma resume_is_stopped_by_output_dir_check_witness :
  read_file PATH dir_with_checkpoint = Some (FCheckpoint old_checkpoint) /\
  main (sample_args true true false "test" (-1) 32 1) (sample_env 2 0)
    dir_with_checkpoint =
  (events (setup_device (sample_args true true false "test" (-1) 32 1)
             (sample_env 2 0) dir_with_checkpoint) ++ [EvSeed],
   dir_with_checkpoint, inl OutputDirNotEmpty).
Proof.
  split; [reflexivity|].
  apply (resume_is_stopped_by_output_dir_check
           (sample_args true true false "test" (-1) 32 1) (sample_env 2 0)
           dir_with_checkpoint (FCheckpoint old_checkpoint));
    first [reflexivity | simpl; lia].
Defined.

(** C6, as the claim states it, fails: the process of rank 1 of a
    distributed run writes the checkpoint, once per batch it trains. *)
Lemma other_rank_writes_checkpoint :
  local_rank (sample_args true true false "test" 1 32 2) = 1 /\
  rank (sample_env 2 1) = 1 /\
  count is_torch_save
    (events (main (sample_args true true false "test" 1 32 2) (sample_env 2 1) None))
    = 6%nat /\
  is_Some (read_file PATH
             (final_dir (main (sample_args true true false "test" 1 32 2)
                           (sample_env 2 1) None))) /\
  ~ (forall args (env : Env nat nat nat (list (list Z))) d,
       local_rank args <> -1 -> rank env <> 0 ->
       count is_torch_save (events (main args env d)) = 0%nat /\
       count is_write_report (events (main args env d)) = 0%nat).
Proof.
  split_and!; [reflexivity | reflexivity | by vm_compute | |].
  - vm_compute. by eexists.
  - intros Hclaim.
    destruct (Hclaim (sample_args true true false "test" 1 32 2) (sample_env 2 1) None
                ltac:(simpl; lia) ltac:(simpl; lia)) as [Hsave _].
    vm_compute in Hsave. discriminate Hsave.
Qed.

Lemma other_ranks_write_no_report_witness :
  local_rank (sample_args true true false "test" 1 32 2) <> -1 /\
  rank (sample_env 2 1) <> 0 /\
  count is_write_report
    (events (main (sample_args true true false "test" 1 32 2) (sample_env 2 1) None))
    = 0%nat.
Proof.
  assert (H1 : local_rank (sample_args true true false "test" 1 32 2) <> -1)
    by (simpl; lia).
  assert (H2 : rank (sample_env 2 1) <> 0) by (simpl; lia).
  split_and!; [exact H1 | exact H2 |].
  exact (proj1 (other_ranks_write_no_report
                  (sample_args true true false "test" 1 32 2) (sample_env 2 1) None
                  H1 H2)).
Defined.

(** C7, as the claim states it, fails: an unknown [eval_on] is raised after
    a batch has been trained and its checkpoint written, and the invalid
    [gradient_accumulation_steps] after the device has been set up. *)
Lemma eval_on_error_comes_after_training_work :
  result (main (sample_args true true true "validation" (-1) 32 1) (sample_env 2 0) None)
    = inl EvalOnInvalid /\
  event_name <$> events (main (sample_args true true true "validation" (-1) 32 1)
                           (sample_env 2 0) None) =
    ["torch.device"; "seed"; "os.makedirs"; "from_pretrained";
     "read train"; "features train"; "DataLoader"; "forward/backward";
     "optimizer.step"; "scheduler.step"; "zero_grad"; "torch.save"] /\
  is_Some (read_file PATH
             (final_dir (main (sample_args true true true "validation" (-1) 32 1)
                           (sample_env 2 0) None))) /\
  main (sample_args true true false "test" (-1) 32 0) (sample_env 2 0) None =
    ([EvQueryDevice], None, inl (InvalidGradAccum 0)).
Proof.
  split_and!; [by vm_compute | by vm_compute | | by vm_compute].
  vm_compute. by eexists.
Qed.

Lemma start_up_errors_witness :
  main (sample_args true true false "test" (-1) 32 0) (sample_env 2 0) None =
    (events (setup_device (sample_args true true false "test" (-1) 32 0)
               (sample_env 2 0) None),
     None, inl (InvalidGradAccum 0)) /\
  main (sample_args false false false "test" (-1) 32 1) (sample_env 2 0) None =
    (events (setup_device (sample_args false false false "test" (-1) 32 1)
               (sample_env 2 0) None) ++ [EvSeed],
     None, inl NoTrainNoEval) /\
  main (sample_args true true false "test" (-1) 32 1) (sample_env 2 0)
    dir_with_checkpoint =
    (events (setup_device (sample_args true true false "test" (-1) 32 1)
               (sample_env 2 0) dir_with_checkpoint) ++ [EvSeed],
     dir_with_checkpoint, inl OutputDirNotEmpty) /\
  EvFromPretrained ∈
    events (main (sample_args true true true "validation" (-1) 32 1)
              (sample_env 2 0) None) /\
  (* two batches in an epoch: the error comes with the first *)
  (let r := main (sample_args true true true "validation" (-1) 32 1)
              (sample_env 2 0) None in
   (count is_forward_backward (events r) = 1%nat /\
    count is_torch_save (events r) = 1%nat /\
    count is_save_pretrained (events r) = 0%nat /\
    is_Some (read_file PATH (final_dir r))) \/
   (count is_forward_backward (events r) = 0%nat /\
    count is_torch_save (events r) = 0%nat /\
    count is_save_pretrained (events r) = 1%nat)) /\
  (* no batch in any epoch: the error comes at the final evaluation *)
  (let r := main (sample_args true true true "validation" (-1) 32 1)
              (sample_env 0 0) None in
   (count is_forward_backward (events r) = 1%nat /\
    count is_torch_save (events r) = 1%nat /\
    count is_save_pretrained (events r) = 0%nat /\
    is_Some (read_file PATH (final_dir r))) \/
   (count is_forward_backward (events r) = 0%nat /\
    count is_torch_save (events r) = 0%nat /\
    count is_save_pretrained (events r) = 1%nat)).
Proof.
  split_and!.
  - apply (proj1 (start_up_errors (sample_args true true false "test" (-1) 32 0)
                    (sample_env 2 0) None)).
    simpl. lia.
  - apply (proj1 (proj2 (start_up_errors (sample_args false false false "test" (-1) 32 1)
                           (sample_env 2 0) None)));
      first [reflexivity | simpl; lia].
  - apply (proj1 (proj2 (proj2 (start_up_errors
                                  (sample_args true true false "test" (-1) 32 1)
                                  (sample_env 2 0) dir_with_checkpoint))));
      first [reflexivity | simpl; lia].
  - apply (proj1 (proj2 (proj2 (proj2 (proj2 (start_up_errors
                                  (sample_args true true true "validation" (-1) 32 1)
                                  (sample_env 2 0) None)))))).
    by vm_compute.
  - apply (proj1 (proj2 (proj2 (proj2 (proj2 (proj2 (start_up_errors
                                  (sample_args true true true "validation" (-1) 32 1)
                                  (sample_env 2 0) None)))))));
      first [reflexivity | by vm_compute].
  - apply (proj1 (proj2 (proj2 (proj2 (proj2 (proj2 (start_up_errors
                                  (sample_args true true true "validation" (-1) 32 1)
                                  (sample_env 0 0) None)))))));
      first [reflexivity | by vm_compute].
Defined.

(** C9, as the claim states it, fails for a negative [train_batch_size]:
    the floor division gives [-1], not 0. *)
Lemma negative_train_batch_size_is_not_zero :
  gradient_accumulation_steps (sample_args true true false "test" (-1) (-4) 8) >
    train_batch_size (sample_args true true false "test" (-1) (-4) 8) /\
  result (preflight (sample_args true true false "test" (-1) (-4) 8)
            (None : Dir nat nat nat unit)) = inr (-1) /\
  ~ (forall args (d : Dir nat nat nat unit) b,
       gradient_accumulation_steps args > train_batch_size args ->
       result (preflight args d) = inr b -> b = 0).
Proof.
  split_and!; [simpl; lia | reflexivity |].
  intros Hclaim.
  specialize (Hclaim (sample_args true true false "test" (-1) (-4) 8) None (-1)
                ltac:(simpl; lia) eq_refl).
  discriminate Hclaim.
Qed.

Lemma train_batch_size_is_divided_witness :
  0 <= train_batch_size (sample_args true true false "test" (-1) 2 4)
    < gradient_accumulation_steps (sample_args true true false "test" (-1) 2 4) /\
  result (preflight (sample_args true true false "test" (-1) 2 4)
            (None : Dir nat nat nat unit)) = inr (2 / 4) /\
  2 / 4 = 0 /\
  EvTrainDataLoader 16 ∈
    events (main (sample_args true true false "test" (-1) 32 2) (sample_env 2 0) None) /\
  16 = train_batch_size (sample_args true true false "test" (-1) 32 2) /
       gradient_accumulation_steps (sample_args true true false "test" (-1) 32 2) /\
  (* 64 examples, configured batch size 32, accumulation over 2 batches:
     4 batches of 16 in each of the 3 epochs, not 2 batches of 32 *)
  result (main (sample_args true true false "test" (-1) 32 2) (sized_env 64) None)
    = inr tt /\
  Z.of_nat (count is_forward_backward
              (events (main (sample_args true true false "test" (-1) 32 2)
                         (sized_env 64) None))) =
    sum_over (fun epoch => Z.of_nat (length (train_dataloader (sized_env 64) (32 / 2) epoch)))
      (seqZ 0 3) /\
  sum_over (fun epoch => Z.of_nat (length (train_dataloader (sized_env 64) (32 / 2) epoch)))
    (seqZ 0 3) = 12 /\
  sum_over (fun epoch => Z.of_nat (length (train_dataloader (sized_env 64) 32 epoch)))
    (seqZ 0 3) = 6 /\
  main (sample_args true true false "test" (-1) 32 2)
    (with_train_dataloader
       (fun batch_size _ => if batch_size =? 16 then replicate 4 sample_batch else [])
       (sized_env 64)) None =
  main (sample_args true true false "test" (-1) 32 2) (sized_env 64) None.
Proof.
  assert (H1 : 0 <= train_batch_size (sample_args true true false "test" (-1) 2 4)
               < gradient_accumulation_steps (sample_args true true false "test" (-1) 2 4))
    by (simpl; lia).
  assert (H2 : result (preflight (sample_args true true false "test" (-1) 2 4)
                         (None : Dir nat nat nat unit)) = inr (2 / 4))
    by reflexivity.
  assert (H3 : EvTrainDataLoader 16 ∈
            events (main (sample_args true true false "test" (-1) 32 2)
                      (sample_env 2 0) None)).
  { vm_compute. do 6 apply list_elem_of_further. apply list_elem_of_here. }
  assert (H4 : result (main (sample_args true true false "test" (-1) 32 2)
                         (sized_env 64) None) = inr tt)
    by (vm_compute; reflexivity).
  split; [exact H1|]. split; [exact H2|]. split; [|split; [exact H3|]].
  - exact (proj2 (proj2 (proj2 (proj2 train_batch_size_is_divided))) _ None _ H1 H2).
  - split; [exact (proj1 (proj2 train_batch_size_is_divided) _ _ None _ H3)|].
    split; [exact H4|].
    split; [exact (proj1 (proj2 (proj2 train_batch_size_is_divided))
                     (sample_args true true false "test" (-1) 32 2) (sized_env 64) None
                     eq_refl eq_refl H4)|].
    split; [reflexivity|]. split; [reflexivity|].
    apply (proj1 (proj2 (proj2 (proj2 train_batch_size_is_divided)))
             (sample_args true true false "test" (-1) 32 2) (sized_env 64)).
    intros epoch. reflexivity.
Defined.

End StartupRuns.

(** ** More about the decoding loop *)

Module DecodeMore.
Import LabelMap Decode LabelMapFacts DecodeFacts DecodeSpec.

Section Walk.
Variables (lm : gmap Z string) (logits : list (list Z)) (i : nat).

(** The walk runs off the end of the row exactly when every position
    decodes. *)
Lemma walk_exhausted label : forall j t1 t2 a b,
  (1 <= j)%nat ->
  walk lm logits i j label t1 t2 = RowExhausted a b <->
  exists ns ps,
    a = t1 ++ ns /\ b = t2 ++ ps /\ decoded lm logits i j label (length label) ns ps.
Proof.
  induction label as [|m rest IH]; intros j t1 t2 a b Hj; simpl.
  - split.
    + intros [= <- <-]. exists [], []. rewrite !app_nil_r. split_and!; try done.
      by apply decoded_0.
    + intros (ns & ps & -> & -> & Hd). apply decoded_0 in Hd as [-> ->].
      by rewrite !app_nil_r.
  - destruct (Nat.eqb_spec j 0) as [->|_]; [lia|].
    destruct (Z.eqb_spec m (len lm)) as [->|Hne].
    { split; [done|]. intros (ns & ps & _ & _ & Hd).
      apply decoded_S in Hd as (? & ? & ? & ? & _ & _ & Hbad & _). done. }
    destruct (lm !! m) as [name|] eqn:Hlm.
    2:{ split; [done|]. intros (ns & ps & _ & _ & Hd).
        apply decoded_S in Hd as (? & ? & ? & ? & _ & _ & _ & Hbad & _). congruence. }
    destruct (logits_at logits i j) as [q|] eqn:Hq.
    2:{ split; [done|]. intros (ns & ps & _ & _ & Hd).
        apply decoded_S in Hd as (? & ? & ? & ? & _ & _ & _ & _ & Hbad & _). congruence. }
    rewrite IH by lia. split.
    + intros (ns & ps & -> & -> & Hd).
      exists (name :: ns), (get_or_pad lm q :: ps).
      rewrite <- !app_assoc. split_and!; try done.
      apply decoded_S. by exists name, q, ns, ps.
    + intros (ns & ps & -> & -> & Hd).
      apply decoded_S in Hd as (name' & q' & ns' & ps' & -> & -> & _ & Hlm' & Hq' & Hd).
      assert (name' = name) as -> by congruence. assert (q' = q) as -> by congruence.
      exists ns', ps'. by rewrite <- !app_assoc.
Qed.

(** In every outcome that carries them, the two lists have grown by the
    same number of names. *)
Lemma walk_lockstep label : forall j t1 t2,
  match walk lm logits i j label t1 t2 with
  | RowFlushed _ a b | RowExhausted a b =>
      exists ns ps, a = t1 ++ ns /\ b = t2 ++ ps /\ length ns = length ps
  | _ => True
  end.
Proof.
  induction label as [|m rest IH]; intros j t1 t2; simpl.
  - exists [], []. by rewrite !app_nil_r.
  - destruct (j =? 0)%nat; [apply IH|].
    destruct (m =? len lm). { exists [], []. by rewrite !app_nil_r. }
    destruct (lm !! m) as [name|]; [|done].
    destruct (logits_at logits i j) as [q|]; [|done].
    specialize (IH (S j) (t1 ++ [name]) (t2 ++ [get_or_pad lm q])).
    destruct (walk _ _ _ _ _ _ _) as [j' a b|a b| |]; try done.
    + destruct IH as (ns & ps & -> & -> & Hlen).
      exists (name :: ns), (get_or_pad lm q :: ps). rewrite <- !app_assoc.
      simpl. auto.
    + destruct IH as (ns & ps & -> & -> & Hlen).
      exists (name :: ns), (get_or_pad lm q :: ps). rewrite <- !app_assoc.
      simpl. auto.
Qed.

End Walk.

(** X1: the flat lists [y_true] and [y_pred] only grow, and they grow in
    lockstep: when the decoding of the rows returns, each list is the one
    it started from followed by as many new names as the other got, so
    lists of equal length stay of equal length. *)
Theorem eval_rows_grow_in_lockstep
    (lm : gmap Z string) (logits : list (list Z)) (label_ids : list (list Z)) :
  forall (i : nat) (y_true y_pred y_true' y_pred' : list string),
    eval_rows lm logits i label_ids y_true y_pred = inr (y_true', y_pred') ->
    exists new_true new_pred,
      y_true' = y_true ++ new_true /\ y_pred' = y_pred ++ new_pred /\
      length new_true = length new_pred.
Proof.
  induction label_ids as [|label rest IH]; intros i y_true y_pred y_true' y_pred'; simpl.
  - intros [= <- <-]. exists [], []. by rewrite !app_nil_r.
  - pose proof (walk_lockstep lm logits i label 0 [] []) as Hrow.
    unfold eval_row. destruct (walk _ _ _ _ _ _ _) as [j a b|a b| |]; try done.
    + destruct Hrow as (ns & ps & -> & -> & Hlen). simpl.
      intros (a & b & -> & -> & Hlen')%IH.
      exists (ns ++ a), (ps ++ b). rewrite !app_assoc, !length_app. auto.
    + intros Hrest. by apply IH in Hrest.
Qed.

Lemma eval_rows_grow_in_lockstep_witness :
  eval_rows (label_map ["O"; "PERIOD"; "COMMA"]) [[0; 1; 7; 0; 0]; [0; 2; 2; 0; 0]] 0
    [[0; 1; 2; 3; 0]; [0; 2; 3; 0; 0]] ["COMMA"] ["O"]
  = inr (["COMMA"; "O"; "PERIOD"; "PERIOD"], ["O"; "O"; "PAD"; "PERIOD"]) /\
  exists new_true new_pred,
    ["COMMA"; "O"; "PERIOD"; "PERIOD"] = ["COMMA"] ++ new_true /\
    ["O"; "O"; "PAD"; "PERIOD"] = ["O"] ++ new_pred /\
    length new_true = length new_pred.
Proof.
  split; [reflexivity|].
  apply (eval_rows_grow_in_lockstep (label_map ["O"; "PERIOD"; "COMMA"])
           [[0; 1; 7; 0; 0]; [0; 2; 2; 0; 0]] [[0; 1; 2; 3; 0]; [0; 2; 3; 0; 0]] 0).
  reflexivity.
Defined.

(** X2: a row that holds [len(label_map)] at no position from 1 on, and
    only keys of the label map there, is walked to its end without a
    [break]: its names are dropped, and [y_true] and [y_pred] are left as
    they were. *)
Theorem row_without_end_marker_is_dropped
    (label_list : list string) (logits : list (list Z)) (i : nat) (label : list Z) :
  (forall p, (p < length label)%nat -> is_Some (logits_at logits i p)) ->
  ((exists t1 t2, eval_row (label_map label_list) logits i label = RowExhausted t1 t2) <->
   (forall p m, (1 <= p)%nat -> label !! p = Some m ->
                1 <= m < Z.of_nat (length label_list))) /\
  ((forall p m, (1 <= p)%nat -> label !! p = Some m ->
                1 <= m < Z.of_nat (length label_list)) ->
   forall rest y_true y_pred,
     eval_rows (label_map label_list) logits i (label :: rest) y_true y_pred =
     eval_rows (label_map label_list) logits (S i) rest y_true y_pred).
Proof.
  intros Hshape.
  assert (Hiff : (exists t1 t2, eval_row (label_map label_list) logits i label
                                = RowExhausted t1 t2) <->
                 (forall p m, (1 <= p)%nat -> label !! p = Some m ->
                              1 <= m < Z.of_nat (length label_list))).
  { destruct label as [|m0 rest]; [split; [by intros _ p m _|by eexists _, _]|].
    rewrite eval_row_cons. split.
    - intros (t1 & t2 & (ns & ps & _ & _ & _ & _ & Hall)%walk_exhausted); [|lia].
      intros [|p] m Hp Hm; [lia|]. simpl in Hm.
      destruct (Hall p) as (m' & name & q & Hm' & Hne & Hlm & _).
      { by eapply lookup_lt_Some. }
      assert (m' = m) as -> by congruence.
      assert (is_Some (label_map label_list !! m)) as Hk%label_map_is_Some by eauto.
      rewrite len_label_map in Hne. lia.
    - intros Hall.
      assert (Hex : forall (rest : list Z) (j : nat) (t1 t2 : list string),
                 (1 <= j)%nat ->
                 (forall k m, rest !! k = Some m -> 1 <= m < Z.of_nat (length label_list)) ->
                 (forall k, (k < length rest)%nat -> is_Some (logits_at logits i (j + k))) ->
                 exists a b, walk (label_map label_list) logits i j rest t1 t2
                             = RowExhausted a b).
      { clear. induction rest as [|m rest IH]; intros j t1 t2 Hj Hall Hshape; simpl.
        - by eexists _, _.
        - destruct (Nat.eqb_spec j 0) as [->|_]; [lia|].
          pose proof (Hall 0%nat m eq_refl) as Hm.
          destruct (Z.eqb_spec m (len (label_map label_list))) as [He|_].
          { rewrite len_label_map in He. lia. }
          assert (is_Some (label_map label_list !! m)) as [name ->].
          { apply label_map_is_Some. lia. }
          destruct (Hshape 0%nat ltac:(simpl; lia)) as [q Hq].
          rewrite Nat.add_0_r in Hq. rewrite Hq.
          apply IH; [lia| |].
          + intros k m' Hk. by apply (Hall (S k)).
          + intros k Hk. replace (S j + k)%nat with (j + S k)%nat by lia.
            apply Hshape. simpl. lia. }
      apply Hex; [lia| |by eapply shape_tail].
      intros k m Hk. apply (Hall (S k)); [lia|done]. }
  split; [exact Hiff|].
  intros Hall rest y_true y_pred. apply Hiff in Hall as (t1 & t2 & Hrow).
  simpl. by rewrite Hrow.
Qed.

Lemma row_without_end_marker_is_dropped_witness :
  eval_rows (label_map ["O"; "PERIOD"; "COMMA"]) [[0; 1; 1; 1; 1]] 0
    [[0; 1; 2; 1; 2]] ["COMMA"] ["O"]
  = eval_rows (label_map ["O"; "PERIOD"; "COMMA"]) [[0; 1; 1; 1; 1]] 1
    [] ["COMMA"] ["O"].
Proof.
  apply (proj2 (row_without_end_marker_is_dropped ["O"; "PERIOD"; "COMMA"]
                  [[0; 1; 1; 1; 1]] 0 [0; 1; 2; 1; 2] (shape_5 0 1 1 1 1 0 1 2 1 2))).
  intros p m Hp Hm.
  do 5 (destruct p as [|p]; [first [lia | injection Hm as <-; simpl; lia]|]).
  discriminate Hm.
Defined.


(** X3: what the walk over a row never looks at: the label at position 0,
    and every label after the position where it stops.  A row that is
    flushed at position [j] is flushed the same way whatever replaces its
    first label and whatever follows position [j]. *)
Theorem labels_outside_the_words_are_ignored
    (label_list : list string) (logits : list (list Z)) (i : nat) (label : list Z)
    (j : nat) (t1 t2 : list string) :
  eval_row (label_map label_list) logits i label = RowFlushed j t1 t2 ->
  forall (first : Z) (after : list Z),
    eval_row (label_map label_list) logits i
      (first :: drop 1 (take (S j) label) ++ after) = RowFlushed j t1 t2.
Proof.
  intros Hrow first after.
  apply eval_row_flushed_iff in Hrow as (Hj & Hstop & Hn1 & Hn2 & Hall).
  apply eval_row_flushed_iff.
  assert (Hlook : forall p, (1 <= p <= j)%nat ->
             (first :: drop 1 (take (S j) label) ++ after) !! p = label !! p).
  { intros [|p] Hp; [lia|]. simpl.
    assert (Hlen : (j < length label)%nat) by by eapply lookup_lt_Some.
    rewrite lookup_app_l by (rewrite length_drop, length_take; lia).
    rewrite lookup_drop, lookup_take_lt by lia. done. }
  split_and!; try done.
  - rewrite Hlook by lia. done.
  - intros p Hp. rewrite Hlook by lia. by apply Hall.
Qed.

Lemma labels_outside_the_words_are_ignored_witness :
  eval_row (label_map ["O"; "PERIOD"; "COMMA"]) [[0; 1; 7; 0; 0]] 0 [0; 1; 2; 3; 0]
    = RowFlushed 3 ["O"; "PERIOD"] ["O"; "PAD"] /\
  eval_row (label_map ["O"; "PERIOD"; "COMMA"]) [[0; 1; 7; 0; 0]] 0
    (9 :: drop 1 (take 4 [0; 1; 2; 3; 0]) ++ [5; 5])
    = RowFlushed 3 ["O"; "PERIOD"] ["O"; "PAD"].
Proof.
  split; [reflexivity|].
  apply (labels_outside_the_words_are_ignored ["O"; "PERIOD"; "COMMA"]
           [[0; 1; 7; 0; 0]] 0 [0; 1; 2; 3; 0] 3 ["O"; "PERIOD"] ["O"; "PAD"]).
  reflexivity.
Defined.

(** X4: the loop decodes a row of the expected shape to the names of its
    ids.  For a row made of a first label, ids that are keys below
    [len(label_list)], the id [len(label_list)], and anything after it,
    with predictions [preds] at the positions of the ids, the walk flushes
    at the position of [len(label_list)]; the true names are
    [label_list[id - 1]] for the ids in order, and the predicted names are
    the predictions looked up with the ['PAD'] default. *)
Theorem well_formed_row_is_decoded
    (label_list : list string) (logits : list (list Z)) (i : nat)
    (first : Z) (ids after : list Z) (first_pred : Z) (preds more_preds : list Z) :
  Forall (fun id => 1 <= id < Z.of_nat (length label_list)) ids ->
  logits !! i = Some (first_pred :: preds ++ more_preds) ->
  length preds = length ids ->
  exists names,
    eval_row (label_map label_list) logits i
      (first :: ids ++ Z.of_nat (length label_list) :: after)
    = RowFlushed (S (length ids)) names (get_or_pad (label_map label_list) <$> preds) /\
    Forall2 (fun id name => label_list !! Z.to_nat (id - 1) = Some name) ids names.
Proof.
  intros Hids Hlogits Hlen.
  assert (Hnames : exists names,
             Forall2 (fun id name => label_list !! Z.to_nat (id - 1) = Some name) ids names).
  { clear -Hids. induction Hids as [|id ids Hid _ (names & IH)]; [by exists []|].
    destruct (lookup_lt_is_Some_2 label_list (Z.to_nat (id - 1)) ltac:(lia)) as [name Hn].
    exists (name :: names). by constructor. }
  destruct Hnames as (names & Hnames). exists names. split; [|done].
  pose proof (Forall2_length _ _ _ Hnames) as Hlen'.
  apply eval_row_flushed_iff. split_and!.
  - lia.
  - simpl. rewrite lookup_app_r by lia. by rewrite Nat.sub_diag.
  - simpl. lia.
  - rewrite length_fmap. simpl. lia.
  - intros p Hp. destruct p as [|p]; [lia|]. simpl. rewrite Nat.sub_0_r.
    destruct (lookup_lt_is_Some_2 ids p ltac:(lia)) as [id Hid].
    destruct (Forall2_lookup_l _ _ _ _ _ Hnames Hid) as (name & Hname & Hlab).
    destruct (lookup_lt_is_Some_2 preds p ltac:(lia)) as [q Hq].
    pose proof (proj1 (Forall_lookup _ _) Hids p id Hid) as Hrange. simpl in Hrange.
    exists id, name, q. split_and!.
    + by rewrite lookup_app_l by lia.
    + lia.
    + rewrite label_map_lookup. by rewrite decide_True by lia.
    + done.
    + unfold logits_at. rewrite Hlogits. simpl. by rewrite lookup_app_l by lia.
    + by rewrite list_lookup_fmap, Hq.
Qed.

Lemma well_formed_row_is_decoded_witness :
  exists names,
    eval_row (label_map ["O"; "PERIOD"; "COMMA"]) [[0; 1; 7; 0; 0]] 0
      (0 :: [1; 2] ++ Z.of_nat (length ["O"; "PERIOD"; "COMMA"]) :: [0])
    = RowFlushed (S (length [1; 2])) names
        (get_or_pad (label_map ["O"; "PERIOD"; "COMMA"]) <$> [1; 7]) /\
    Forall2 (fun id name => ["O"; "PERIOD"; "COMMA"] !! Z.to_nat (id - 1) = Some name)
      [1; 2] names.
Proof.
  apply (well_formed_row_is_decoded ["O"; "PERIOD"; "COMMA"] [[0; 1; 7; 0; 0]] 0
           0 [1; 2] [0] 0 [1; 7] [0; 0]).
  - repeat constructor; simpl; lia.
  - reflexivity.
  - reflexivity.
Defined.

(** X5: the label map is 1-based: key [k >= 1] holds [label_list[k - 1]],
    no key is below 1, and it has [len(label_list)] entries; when the label
    list has no duplicates, two ids with the same name are the same id. *)
Theorem label_map_is_one_based (label_list : list string) :
  (forall k, 1 <= k -> label_map label_list !! k = label_list !! Z.to_nat (k - 1)) /\
  (forall k, k < 1 -> label_map label_list !! k = None) /\
  len (label_map label_list) = Z.of_nat (length label_list) /\
  (NoDup label_list ->
   forall k1 k2 name,
     label_map label_list !! k1 = Some name ->
     label_map label_list !! k2 = Some name -> k1 = k2).
Proof.
  split_and!.
  - intros k Hk. rewrite label_map_lookup. by rewrite decide_True.
  - intros k Hk. rewrite label_map_lookup. by rewrite decide_False by lia.
  - apply len_label_map.
  - intros Hnd k1 k2 name. rewrite !label_map_lookup.
    destruct (decide (1 <= k1)); [|done]. destruct (decide (1 <= k2)); [|done].
    intros H1 H2. pose proof (NoDup_lookup _ _ _ _ Hnd H1 H2). lia.
Qed.

Lemma label_map_is_one_based_witness :
  label_map ["O"; "PERIOD"; "COMMA"] !! 2 = ["O"; "PERIOD"; "COMMA"] !! Z.to_nat (2 - 1) /\
  label_map ["O"; "PERIOD"; "COMMA"] !! 0 = None /\
  2 = 2.
Proof.
  split_and!.
  - apply (proj1 (label_map_is_one_based ["O"; "PERIOD"; "COMMA"])). lia.
  - apply (proj1 (proj2 (label_map_is_one_based ["O"; "PERIOD"; "COMMA"]))). lia.
  - apply (proj2 (proj2 (proj2 (label_map_is_one_based ["O"; "PERIOD"; "COMMA"])))
             ltac:(apply (bool_decide_unpack _); vm_compute; exact I) 2 2 "PERIOD");
      reflexivity.
Defined.

End DecodeMore.

(** ** Model class and parameter groups *)

Module SetupFacts.
Import Driver Setup.

Lemma prefix_spec (sub s : string) :
  String.prefix sub s = true <-> exists post, s = String.append sub post.
Proof.
  revert s. induction sub as [|a sub IH]; intros s.
  - destruct s; simpl; (split; [by eexists|done]).
  - destruct s as [|b s]; simpl; [split; [done|by intros [? [=]]]|].
    destruct (ascii_dec a b) as [->|Hne].
    + rewrite IH. split; intros [post H]; exists post; [by rewrite H|by injection H].
    + split; [done|]. intros [post [= -> _]]. done.
Qed.

Lemma contains_nil (sub : string) :
  contains sub EmptyString = String.prefix sub EmptyString.
Proof. simpl. apply orb_false_r. Qed.

Lemma contains_cons (sub : string) (c : ascii) (s : string) :
  contains sub (String c s) = String.prefix sub (String c s) || contains sub s.
Proof. reflexivity. Qed.

(** [contains sub s] is the substring test. *)
Lemma contains_spec (sub s : string) :
  contains sub s = true <->
  exists pre post, s = String.append pre (String.append sub post).
Proof.
  induction s as [|c s IH].
  - rewrite contains_nil, prefix_spec. split.
    + intros [post H]. by exists EmptyString, post.
    + intros (pre & post & H). destruct pre; [by exists post|done].
  - rewrite contains_cons, orb_true_iff, prefix_spec, IH. split.
    + intros [[post H]|(pre & post & H)].
      * by exists EmptyString, post.
      * exists (String c pre), post. simpl. by rewrite H.
    + intros (pre & post & H). destruct pre as [|c' pre].
      * left. by exists post.
      * right. injection H as -> ->. by exists pre, post.
Qed.

Lemma any_no_decay_spec (n : string) :
  any_no_decay n = true <->
  exists pre post,
    n = String.append pre (String.append "bias" post) \/
    n = String.append pre (String.append "LayerNorm.weight" post).
Proof.
  unfold any_no_decay, no_decay. cbn [existsb].
  rewrite orb_false_r, orb_true_iff, !contains_spec. split.
  - intros [(pre & post & H)|(pre & post & H)]; exists pre, post; auto.
  - intros (pre & post & [H|H]); [left|right]; by exists pre, post.
Qed.

Lemma filter_split_permutation {A : Type} (f : A -> bool) (l : list A) :
  List.filter (fun x => negb (f x)) l ++ List.filter f l ≡ₚ l.
Proof.
  induction l as [|x l IH]; [done|]. simpl. destruct (f x); simpl.
  - rewrite <- Permutation_middle. by constructor.
  - by constructor.
Qed.

(** X6: the optimizer's two parameter groups split the named parameters:
    no parameter is lost or doubled, a parameter whose name contains
    ["bias"] or ["LayerNorm.weight"] is in the group with weight decay
    [0.0], and every other one is in the group with [args.weight_decay]. *)
Theorem parameter_groups_split_the_parameters
    {Param Decay : Type} (param_optimizer : list (string * Param))
    (weight_decay zero : Decay) :
  exists decayed not_decayed,
    optimizer_grouped_parameters param_optimizer weight_decay zero =
      [(decayed, weight_decay); (not_decayed, zero)] /\
    decayed ++ not_decayed ≡ₚ map snd param_optimizer /\
    (forall n p, (n, p) ∈ param_optimizer ->
       (exists pre post,
          n = String.append pre (String.append "bias" post) \/
          n = String.append pre (String.append "LayerNorm.weight" post)) ->
       p ∈ not_decayed) /\
    (forall n p, (n, p) ∈ param_optimizer ->
       ~ (exists pre post,
            n = String.append pre (String.append "bias" post) \/
            n = String.append pre (String.append "LayerNorm.weight" post)) ->
       p ∈ decayed).
Proof.
  eexists _, _. split; [reflexivity|]. split_and!.
  - rewrite <- map_app. apply Permutation_map, filter_split_permutation.
  - intros n p Hin Hname%any_no_decay_spec.
    apply list_elem_of_In, in_map_iff. exists (n, p). split; [done|].
    apply filter_In. split; [by apply list_elem_of_In|done].
  - intros n p Hin Hname.
    apply list_elem_of_In, in_map_iff. exists (n, p). split; [done|].
    apply filter_In. split; [by apply list_elem_of_In|]. simpl.
    destruct (any_no_decay n) eqn:Hn; [|done].
    by apply any_no_decay_spec in Hn.
Qed.

Lemma parameter_groups_split_the_parameters_witness :
  exists decayed not_decayed : list nat,
    optimizer_grouped_parameters
      [("encoder.layer.0.output.dense.weight", 1%nat);
       ("encoder.layer.0.output.dense.bias", 2%nat);
       ("encoder.layer.0.output.LayerNorm.weight", 3%nat);
       ("classifier.weight", 4%nat)] 10%nat 0%nat =
      [(decayed, 10%nat); (not_decayed, 0%nat)] /\
    2%nat ∈ not_decayed /\ 4%nat ∈ decayed.
Proof.
  destruct (parameter_groups_split_the_parameters
              [("encoder.layer.0.output.dense.weight", 1%nat);
               ("encoder.layer.0.output.dense.bias", 2%nat);
               ("encoder.layer.0.output.LayerNorm.weight", 3%nat);
               ("classifier.weight", 4%nat)] 10%nat 0%nat)
    as (decayed & not_decayed & Heq & _ & Hno & Hyes).
  exists decayed, not_decayed. split_and!; [exact Heq| |].
  - apply (Hno "encoder.layer.0.output.dense.bias").
    + apply list_elem_of_further, list_elem_of_here.
    + exists "encoder.layer.0.output.dense.", "". left. reflexivity.
  - apply (Hyes "classifier.weight").
    + do 3 apply list_elem_of_further. apply list_elem_of_here.
    + intros Hname%any_no_decay_spec. vm_compute in Hname. discriminate Hname.
Defined.

(** X7: the model class follows [model_arch] only for the three spellings
    ["crf"], ["lstm"] and ["lstm_crf"]: any other [model_arch], with a
    model type of [MODEL_CLASSES], selects the plain model of the family
    without an error.  A class with a CRF head is selected exactly for
    ["crf"] and ["lstm_crf"], and then the evaluation takes no arg-max; but
    a [model_arch] that merely ends in ["crf"] skips the arg-max as well
    while a class without a CRF head is in use. *)
Theorem model_class_follows_three_spellings (model_type model_arch : string) :
  (is_Some (model_class model_type model_arch) <-> in_MODEL_CLASSES model_type = true) /\
  (forall c, model_class model_type model_arch = Some c ->
     (is_crf_class c = true <-> model_arch = "crf" \/ model_arch = "lstm_crf") /\
     (is_crf_class c = true -> takes_argmax model_arch = false) /\
     (model_arch <> "crf" -> model_arch <> "lstm" -> model_arch <> "lstm_crf" ->
      c = PuncBERTModel \/ c = PuncElectraModel \/ c = PuncXLMRModel) /\
     (endswith model_arch "crf" = true ->
      model_arch <> "crf" -> model_arch <> "lstm_crf" ->
      is_crf_class c = false /\ takes_argmax model_arch = false)).
Proof.
  unfold model_class, in_MODEL_CLASSES, takes_argmax. split.
  - destruct (String.eqb model_type "bert"), (String.eqb model_type "electra"),
      (String.eqb model_type "xlmr"); simpl;
      repeat (destruct (String.eqb model_arch _)); simpl;
      split; intros H; first [done | by eexists | by destruct H].
  - intros c Hc.
    destruct (String.eqb_spec model_arch "crf") as [->|H1].
    { assert (is_crf_class c = true) as ->.
      { repeat (destruct (String.eqb model_type _)); simplify_eq; done. }
      split_and!;
        first [done | by (split; auto) | by (intros; reflexivity)]. }
    destruct (String.eqb_spec model_arch "lstm") as [->|H2].
    { assert (is_crf_class c = false) as ->.
      { repeat (destruct (String.eqb model_type _)); simplify_eq; done. }
      split_and!; first [done | by (split; [done|intros [?|?]; done])]. }
    destruct (String.eqb_spec model_arch "lstm_crf") as [->|H3].
    { assert (is_crf_class c = true) as ->.
      { repeat (destruct (String.eqb model_type _)); simplify_eq; done. }
      split_and!;
        first [done | by (split; auto) | by (intros; reflexivity)]. }
    assert (Hplain : c = PuncBERTModel \/ c = PuncElectraModel \/ c = PuncXLMRModel).
    { repeat (destruct (String.eqb model_type _)); simplify_eq; auto. }
    assert (is_crf_class c = false) as ->.
    { destruct Hplain as [->|[->| ->]]; done. }
    split_and!; first [done | by (split; [done|intros [?|?]; done]) | idtac].
    intros Hends _ _. by rewrite Hends.
Qed.

Lemma model_class_follows_three_spellings_witness :
  model_class "bert" "bicrf" = Some PuncBERTModel /\
  endswith "bicrf" "crf" = true /\
  is_crf_class PuncBERTModel = false /\ takes_argmax "bicrf" = false.
Proof.
  split; [reflexivity|]. split; [reflexivity|].
  apply (proj2 (proj2 (proj2 (proj2 (model_class_follows_three_spellings "bert" "bicrf")
                                 PuncBERTModel eq_refl)))).
  - reflexivity.
  - discriminate.
  - discriminate.
Defined.

End SetupFacts.

(** ** More about evaluation and the modes of a run *)

Module EvaluationFacts.
Import LabelMap Decode Driver Reading LabelMapFacts DecodeFacts DecodeMore.
Import DriverFacts TrainingFacts StartupFacts.

(** Lists of equal length stay of equal length through a batch. *)
Lemma eval_rows_same_length (lm : gmap Z string) (logits : list (list Z))
    (label_ids : list (list Z)) :
  forall (i : nat) (y_true y_pred y_true' y_pred' : list string),
    length y_true = length y_pred ->
    eval_rows lm logits i label_ids y_true y_pred = inr (y_true', y_pred') ->
    length y_true' = length y_pred'.
Proof.
  induction label_ids as [|label rest IH]; intros i y_true y_pred y_true' y_pred' Hlen; simpl.
  - by intros [= <- <-].
  - pose proof (walk_lockstep lm logits i label 0 [] []) as Hrow.
    unfold eval_row. destruct (walk _ _ _ _ _ _ _) as [j a b|a b| |]; try done.
    + destruct Hrow as (ns & ps & -> & -> & Hlen'). simpl.
      apply IH. rewrite !length_app. lia.
    + by apply IH.
Qed.

Section Evaluation.
Context {Model Optimizer Scheduler Loss Tensors : Type}.
Context `{!Torch Model Optimizer Scheduler Loss Tensors}.

Abbreviation M := (@M Model Optimizer Scheduler Loss).
Abbreviation Event := (Event Model Optimizer Scheduler Loss).
Abbreviation Dir := (Dir Model Optimizer Scheduler Loss).
Abbreviation File := (File Model Optimizer Scheduler Loss).
Abbreviation TrainState := (TrainState Model Optimizer Scheduler Loss).
Abbreviation Env := (Env Model Optimizer Scheduler Tensors).
Abbreviation Batch := (Batch Tensors).

Implicit Types (args : Args) (env : Env) (d : Dir) (st : TrainState) (m : Model).

(** *** Computations that do not look at the output directory *)

Lemma dir_blind_ret {A : Type} (a : A) : dir_blind (ret a : M A).
Proof. by exists [], (inr a). Qed.

Lemma dir_blind_raise {A : Type} (e : Exn) : dir_blind (raise e : M A).
Proof. by exists [], (inl e). Qed.

Lemma dir_blind_emit (e : Event) : dir_blind (emit e).
Proof. by exists [e], (inr tt). Qed.

Lemma dir_blind_write_file name (f : File) : dir_blind (write_file name f).
Proof. by exists [], (inr tt). Qed.

Lemma dir_blind_bind {A B : Type} (m : M A) (f : A -> M B) :
  dir_blind m -> (forall a, dir_blind (f a)) -> dir_blind (bind m f).
Proof.
  intros (ev & r & Hm) Hf. destruct r as [e|a].
  - exists ev, (inl e). intros d. destruct (Hm d) as [He Hr].
    by rewrite events_bind, result_bind, He, Hr, app_nil_r.
  - destruct (Hf a) as (ev' & r' & Hfa). exists (ev ++ ev'), r'. intros d.
    destruct (Hm d) as [He Hr]. destruct (Hfa (final_dir (m d))) as [He' Hr'].
    by rewrite events_bind, result_bind, He, Hr, He', Hr'.
Qed.

Lemma dir_blind_for_each {A St : Type} (body : nat -> A -> St -> M St) (l : list A) :
  (forall i x s, dir_blind (body i x s)) ->
  forall i s, dir_blind (for_each body i l s).
Proof.
  intros Hbody. induction l as [|x l IH]; intros i s; simpl.
  - apply dir_blind_ret.
  - apply dir_blind_bind; [apply Hbody|]. intros. apply IH.
Qed.

Lemma eval_step_dir_blind args lm m i (batch : Batch) y :
  dir_blind (eval_step args lm m i batch y).
Proof.
  unfold eval_step. apply dir_blind_bind; [apply dir_blind_emit|intros _].
  destruct (eval_batch _ _ _ _ _); [apply dir_blind_raise|apply dir_blind_ret].
Qed.

(** The trace and the result of an evaluation are the same whatever the
    output directory holds. *)
Lemma evaluate_dir_blind args env m report :
  dir_blind (evaluate args env m report).
Proof.
  unfold evaluate. apply dir_blind_bind.
  - destruct (String.eqb _ _);
      [apply dir_blind_bind; [apply dir_blind_emit|intros; apply dir_blind_ret]|].
    destruct (String.eqb _ _);
      [apply dir_blind_bind; [apply dir_blind_emit|intros; apply dir_blind_ret]|].
    apply dir_blind_raise.
  - intros dl. apply dir_blind_bind; [apply dir_blind_emit|intros _].
    apply dir_blind_bind; [apply dir_blind_for_each; intros; apply eval_step_dir_blind|].
    intros y. apply dir_blind_bind; [apply dir_blind_emit|intros _].
    apply dir_blind_write_file.
Qed.

Lemma eval_step_run args lm m i (batch : Batch) y d :
  eval_step args lm m i batch y d =
  ([EvInference], d,
   match eval_batch lm (model_logits (model_arch args) m batch)
           (label_ids batch) y.1 y.2 with
   | inl e => inl (DecodeError e)
   | inr y' => inr y'
   end).
Proof.
  unfold eval_step, bind, emit, ret, raise. by destruct (eval_batch _ _ _ _ _).
Qed.

(** The loop over the evaluation batches leaves the output directory as it
    is and keeps the two lists of equal length. *)
Lemma eval_loop_run args lm m (batches : list Batch) :
  forall i y d,
    final_dir (for_each (eval_step args lm m) i batches y d) = d /\
    count is_write_report (events (for_each (eval_step args lm m) i batches y d)) = 0%nat /\
    (length y.1 = length y.2 ->
     forall y', result (for_each (eval_step args lm m) i batches y d) = inr y' ->
                length y'.1 = length y'.2).
Proof.
  induction batches as [|batch batches IH]; intros i y d; simpl.
  - split_and!; try done. by intros Hlen y' [= <-].
  - pose proof (eval_step_run args lm m i batch y d) as Hrun.
    destruct (eval_batch lm (model_logits (model_arch args) m batch)
                (label_ids batch) y.1 y.2) as [e|[yt yp]] eqn:Hb.
    + rewrite (bind_inl _ _ _ _ _ _ Hrun). by split_and!.
    + rewrite (bind_inr _ _ _ _ _ _ Hrun).
      destruct (IH (S i) (yt, yp) d) as (Hd & Hc & Hl).
      split_and!.
      * exact Hd.
      * change (events (?ev, ?d0, ?r)) with ev. rewrite count_app, Hc. done.
      * intros Hlen. apply Hl. simpl. by eapply eval_rows_same_length.
Qed.

(** X8: an evaluation writes its report only when every batch has been
    decoded.  When it returns, the report holds [y_true] and [y_pred] of
    equal length and is the one file written; when it raises (unknown
    [eval_on], a true label id outside the label map, a missing
    prediction), the output directory is exactly as before and no report
    is written. *)
Theorem report_is_written_only_by_a_complete_evaluation args env m report d :
  match result (evaluate args env m report d) with
  | inr _ =>
      exists y_true y_pred,
        final_dir (evaluate args env m report d) =
          Some (<[report := FReport y_true y_pred]> (default ∅ d)) /\
        length y_true = length y_pred /\
        count is_write_report (events (evaluate args env m report d)) = 1%nat
  | inl _ =>
      final_dir (evaluate args env m report d) = d /\
      count is_write_report (events (evaluate args env m report d)) = 0%nat
  end.
Proof.
  unfold evaluate.
  rewrite result_bind, final_dir_bind, events_bind, count_app.
  set (loader := if String.eqb (eval_on args) "dev" then _ else _).
  assert (Hloader : (exists dl split, loader d = ([EvReadExamples split], d, inr dl)) \/
                    loader d = ([], d, inl EvalOnInvalid)).
  { subst loader. destruct (String.eqb _ "dev"); [left; by eexists _, _|].
    destruct (String.eqb _ "test"); [left; by eexists _, _|]. by right. }
  destruct Hloader as [(dl & split & ->)| ->]; [|done].
  change (result ([EvReadExamples split], d, inr dl)) with (inr dl : Exn + list Batch).
  change (final_dir ([EvReadExamples split], d, inr dl)) with d.
  cbv iota beta.
  rewrite result_bind, final_dir_bind, events_bind, count_app.
  change (result (emit (EvConvertFeatures "eval") d)) with (inr tt : Exn + unit).
  change (final_dir (emit (EvConvertFeatures "eval") d)) with d.
  cbv iota beta.
  rewrite result_bind, final_dir_bind, events_bind, count_app.
  destruct (eval_loop_run args (label_map (label_list env)) m dl 0 ([], []) d)
    as (Hd & Hc & Hl).
  rewrite Hd, Hc.
  destruct (result (for_each _ _ _ _ _)) as [e|y] eqn:Hres; [done|].
  specialize (Hl eq_refl y eq_refl).
  exists y.1, y.2. split_and!; done.
Qed.

End Evaluation.
End EvaluationFacts.

(** ** More about the start-up and the training loop *)

Module RunFacts.
Import LabelMap Decode Driver Reading LabelMapFacts DecodeFacts.
Import DriverFacts TrainingFacts StartupFacts EvaluationFacts.

Section Run.
Context {Model Optimizer Scheduler Loss Tensors : Type}.
Context `{!Torch Model Optimizer Scheduler Loss Tensors}.

Abbreviation M := (@M Model Optimizer Scheduler Loss).
Abbreviation Event := (Event Model Optimizer Scheduler Loss).
Abbreviation Dir := (Dir Model Optimizer Scheduler Loss).
Abbreviation File := (File Model Optimizer Scheduler Loss).
Abbreviation TrainState := (TrainState Model Optimizer Scheduler Loss).
Abbreviation Env := (Env Model Optimizer Scheduler Tensors).
Abbreviation Batch := (Batch Tensors).

Implicit Types (args : Args) (env : Env) (d : Dir) (st : TrainState).

(** X9: the start-up checks pass exactly when
    [gradient_accumulation_steps >= 1], one of [do_train] and [do_eval] is
    set, the output directory is missing or empty or the run does not
    train, and the lower-cased task name is known; a run that passes them
    goes on with an output directory that exists and holds what it held. *)
Theorem start_up_checks_pass_iff args d :
  ((exists b, result (preflight args d) = inr b) <->
   1 <= gradient_accumulation_steps args /\
   do_train args || do_eval args = true /\
   nonempty (listdir d) && do_train args = false /\
   in_processors (lower (task_name args)) = true) /\
  (forall b, result (preflight args d) = inr b ->
             final_dir (preflight args d) = Some (default ∅ d)).
Proof.
  rewrite preflight_unfold. cbv zeta.
  destruct (Z.ltb_spec (gradient_accumulation_steps args) 1) as [Hk|Hk].
  { split; [|done]. split; [by intros [? ?]|lia]. }
  destruct (do_train args), (do_eval args), (in_processors _), d as [files|];
    simpl; try destruct (nonempty _); simpl;
    (split; [split; [intros [? ?]; done || by split_and!
                    |intros (_ & ? & ? & ?); done || by eexists]
            |done]).
Qed.

(** X10: a model type outside [MODEL_CLASSES] is not among the start-up
    checks: it surfaces as the [KeyError] of line 191, once the output
    directory has been created, and before any model is loaded. *)
Theorem unknown_model_type_is_a_key_error args env d b ev d' :
  preflight args d = (ev, d', inr b) ->
  in_MODEL_CLASSES (model_type args) = false ->
  main args env d =
    (events (setup_device args env d) ++ ev, d',
     inl (UnknownModelType (model_type args))) /\
  d' = Some (default ∅ d) /\
  count is_from_pretrained (events (main args env d)) = 0%nat.
Proof.
  intros Hpf Hmodel.
  assert (Hmain : main args env d =
            (events (setup_device args env d) ++ ev, d',
             inl (UnknownModelType (model_type args)))).
  { destruct (main_preflight_ok _ env _ _ _ _ Hpf) as (n_gpu & ->). cbv zeta.
    assert (Hprep : prepare args env b d' =
                    ([], d', inl (UnknownModelType (model_type args)))).
    { unfold prepare, raise_if. by rewrite Hmodel. }
    rewrite (bind_inl _ _ _ _ _ _ Hprep).
    change (events (?e, ?d0, ?r)) with e. by rewrite app_nil_r. }
  split_and!; [exact Hmain| |].
  - destruct (start_up_checks_pass_iff args d) as [_ Hdir].
    specialize (Hdir b). rewrite Hpf in Hdir. by apply Hdir.
  - rewrite Hmain. change (events (?e, ?d0, ?r)) with e. rewrite count_app.
    assert (Hs : count is_from_pretrained (events (setup_device args env d)) = 0%nat).
    { rewrite setup_device_events. by destruct (_ || _). }
    pose proof (preflight_unfold args d) as Hun. cbv zeta in Hun. rewrite Hpf in Hun.
    repeat case_match; simplify_eq; rewrite Hs; reflexivity.
Qed.

(** X11: the barriers of lines 242-246: in a run that gets past the
    preparation of the model, a distributed process waits at exactly one
    barrier and a single process at none; the state handed on is the
    pretrained model with [global_step = 0]. *)
Theorem one_barrier_per_distributed_process args env b d st :
  result (prepare args env b d) = inr st ->
  count is_barrier (events (prepare args env b d)) =
    (if local_rank args =? -1 then 0%nat else 1%nat) /\
  model st = pretrained_model env /\ global_step st = 0.
Proof.
  unfold prepare, raise_if.
  destruct (in_MODEL_CLASSES _); [|done].
  destruct (Z.eqb_spec (local_rank args) (-1)) as [Hl|Hl];
    destruct (Z.eqb_spec (local_rank args) 0) as [Hl0|Hl0]; try lia;
    destruct (do_train args); try destruct (b =? 0);
    destruct (fp16 args && negb (apex_installed env));
    simpl; try done; intros [= <-]; done.
Qed.

(** X12: with no epoch left to train ([num_train_epochs <= start_epoch],
    as for [num_train_epochs = 0]), the training branch trains no batch
    and writes no checkpoint, and still saves the model it was given and
    the model configuration. *)
Theorem no_epoch_left_still_saves_the_model args env n_gpu b start_epoch st d :
  num_train_epochs args <= start_epoch ->
  exists d',
    train args env n_gpu b start_epoch st d =
      ([EvConvertFeatures "train"; EvTrainDataLoader b;
        EvSavePretrained; EvWriteModelConfig], d', inr st) /\
    read_file "pytorch_model.bin" d' = Some (FModel (model st)) /\
    read_file PATH d' = read_file PATH d.
Proof.
  intros Hle. unfold train. rewrite seqZ_nil by lia. eexists. split_and!.
  - reflexivity.
  - simpl. rewrite !lookup_insert_ne by done. apply lookup_insert_eq.
  - simpl. unfold PATH.
    rewrite !lookup_insert_ne by done. by destruct d.
Qed.

(** X13: the checkpoint written after a batch and the loader of lines
    283-289 agree on the keys: loading what any batch of epoch [epoch] has
    written gives back the model, optimizer, scheduler and running loss of
    that moment, with [start_epoch = epoch + 1], so also after a batch in
    the middle of the epoch; [global_step] and [nb_tr_steps] are not part
    of the checkpoint and stay as the loading run has them. *)
Theorem checkpoint_of_a_batch_loads_as_next_epoch
    args n_gpu epoch step (batch : Batch) st st0 d :
  exists st' d',
    train_batch args n_gpu epoch step batch st d =
      (events (train_batch args n_gpu epoch step batch st d), d', inr st') /\
    load_checkpoint st0 d' =
      ([EvTorchLoad], d',
       inr ({| model := model st'; optimizer := optimizer st';
               scheduler := scheduler st'; tr_loss := tr_loss st';
               global_step := global_step st0; nb_tr_steps := nb_tr_steps st0 |},
            epoch + 1)).
Proof.
  destruct (train_batch_run args n_gpu epoch step batch st d) as (st' & Hb & _).
  exists st'. eexists. split; [by rewrite Hb|].
  unfold load_checkpoint, bind, get_dir, emit, ret. simpl.
  rewrite lookup_insert_eq. reflexivity.
Qed.

(** X14: a training run that completes has gone through the epochs
    [start_epoch .. num_train_epochs - 1]: it has trained and checkpointed
    every batch of each, and the optimizer steps, like [global_step], add
    up to the sum over these epochs of [N // k] for the [N] batches of the
    epoch and [k = gradient_accumulation_steps]; the batches left over at
    the end of an epoch are not carried into the count of the next. *)
Theorem completed_training_counts args env n_gpu b start_epoch st d evs d' st' :
  1 <= gradient_accumulation_steps args ->
  train args env n_gpu b start_epoch st d = (evs, d', inr st') ->
  let epochs := seqZ start_epoch (num_train_epochs args - start_epoch) in
  let N := fun e => Z.of_nat (length (train_dataloader env b e)) in
  Z.of_nat (count is_forward_backward evs) = sum_over N epochs /\
  Z.of_nat (count is_optimizer_step evs) =
    sum_over (fun e => N e / gradient_accumulation_steps args) epochs /\
  global_step st' =
    global_step st + sum_over (fun e => N e / gradient_accumulation_steps args) epochs /\
  count is_torch_save evs = count is_forward_backward evs.
Proof.
  intros Hk Hrun epochs N. unfold train in Hrun.
  apply bind_returns in Hrun as (e1 & d1 & [] & e2 & [= <- <-] & Hrun & ->).
  apply bind_returns in Hrun as (e3 & d3 & [] & e4 & [= <- <-] & Hrun & ->).
  apply bind_returns in Hrun as (e5 & d5 & st5 & e6 & Hloop & Hrest & ->).
  apply epochs_loop_returns in Hloop as (Hf & Ho & Hg & Hs); [|done].
  assert (Hrest' : e6 = [EvSavePretrained; EvWriteModelConfig] /\ st' = st5).
  { unfold bind, emit, write_file, get_dir, put_dir, ret in Hrest. simpl in Hrest.
    by injection Hrest as <- _ <-. }
  destruct Hrest' as [-> ->].
  rewrite !count_app, !count_cons. simpl. subst epochs N. cbv beta.
  change (@count Model Optimizer Scheduler Loss ?p []) with 0%nat.
  rewrite !Nat.add_0_r. done.
Qed.

(** What the preparation of the model lets through. *)
Lemma prepare_lets_no_zero_batch_size args env b d st :
  result (prepare args env b d) = inr st ->
  do_train args = true -> b <> 0.
Proof.
  unfold prepare, raise_if. intros Hres Ht. rewrite Ht in Hres.
  destruct (in_MODEL_CLASSES _); [|done].
  destruct (Z.eqb_spec b 0) as [->|Hb]; [done|done].
Qed.

#[local] Instance data_loader_additive (Q : Z -> Prop) :
  Additive (fun l : list Event => forall b, EvTrainDataLoader b ∈ l -> Q b).
Proof.
  split; [by intros b ?%elem_of_nil|].
  intros l1 l2 H1 H2 b [?|?]%elem_of_app; auto.
Qed.

(** X15: the training data loader is never built with batch size 0: when
    the division of [train_batch_size] leaves 0, a training run stops at
    the [ZeroDivisionError] of line 238, after the training examples have
    been read and before any feature or batch is built; and a run that
    does not train builds no training data loader at all. *)
Theorem train_data_loader_never_gets_batch_size_zero :
  (forall args env d b,
     EvTrainDataLoader b ∈ events (main args env d) ->
     b <> 0 /\ do_train args = true) /\
  (forall args env d ev d',
     preflight args d = (ev, d', inr 0) ->
     do_train args = true ->
     in_MODEL_CLASSES (model_type args) = true ->
     main args env d =
       (events (setup_device args env d) ++ ev ++
        [EvFromPretrained; EvReadExamples "train"], d', inl ZeroDivision)).
Proof.
  split.
  - intros args env d.
    pose (P := fun l : list Event =>
                 forall b, EvTrainDataLoader b ∈ l -> b <> 0 /\ do_train args = true).
    assert (HP : Additive P) by apply data_loader_additive.
    assert (Hleaf : forall e : Event, is_train_dataloader e = false -> P [e]).
    { intros e He b Hin%list_elem_of_singleton. subst e. done. }
    revert d. change (all_runs P (main args env)). unfold main.
    apply (all_runs_bind P); [by apply setup_device_all_runs; auto|intros n_gpu].
    apply (all_runs_bind P); [by apply preflight_all_runs; auto|intros b].
    apply (all_runs_bind_result P); [by apply prepare_all_runs; auto|].
    intros d st Hprep. generalize (final_dir (prepare args env b d)).
    apply (all_runs_bind P); [by apply load_checkpoint_all_runs; auto|intros r].
    destruct (do_train args) eqn:Ht.
    + intros d0 b' Hin. apply run_modes_batch_size in Hin as ->.
      split; [|done]. by eapply prepare_lets_no_zero_batch_size.
    + unfold run_modes, load_trained, evaluate, eval_step. rewrite Ht.
      cbv zeta. all_runs_with ltac:(by apply Hleaf).
  - intros args env d ev d' Hpf Ht Hmodel.
    destruct (main_preflight_ok _ env _ _ _ _ Hpf) as (n_gpu & ->). cbv zeta.
    assert (Hprep : prepare args env 0 d' =
                    ([EvFromPretrained; EvReadExamples "train"], d', inl ZeroDivision)).
    { unfold prepare, raise_if. by rewrite Hmodel, Ht. }
    by rewrite (bind_inl _ _ _ _ _ _ Hprep).
Qed.

(** *** Evaluation-only runs *)

Lemma setup_device_blind args env :
  exists (ev : list Event) n_gpu, forall d, setup_device args env d = (ev, d, inr n_gpu).
Proof. unfold setup_device. destruct (_ || _); by eexists _, _. Qed.

Lemma prepare_blind args env b :
  exists (ev : list Event) r, forall d, prepare args env b d = (ev, d, r).
Proof.
  unfold prepare, raise_if.
  destruct (in_MODEL_CLASSES _), (do_train args), (b =? 0),
    (local_rank args =? -1), (local_rank args =? 0),
    (fp16 args && negb (apex_installed env)); by eexists _, _.
Qed.

Lemma load_trained_run st d :
  load_trained st d =
  ([EvLoadFromOutputDir], d,
   match read_file "pytorch_model.bin" d with
   | Some (FModel m) =>
       inr {| model := m; optimizer := optimizer st; scheduler := scheduler st;
              tr_loss := tr_loss st; global_step := global_step st;
              nb_tr_steps := nb_tr_steps st |}
   | _ => inl PretrainedNotFound
   end).
Proof.
  unfold load_trained, bind, emit, get_dir, ret, raise. simpl.
  by destruct (read_file "pytorch_model.bin" d) as [[| | |]|].
Qed.

(** Past the preparation, an evaluation-only run with a checkpoint of this
    program in its output directory goes the same way whatever the
    checkpoint holds. *)
Lemma eval_only_tail_same args env n_gpu b st (files : gmap string File)
    e1 s1 e2 s2 :
  do_train args = false ->
  let tail := bind (load_checkpoint st) (run_modes args env n_gpu b) in
  let d1 := Some (<[PATH := FCheckpoint (checkpoint_dict e1 s1)]> files) in
  let d2 := Some (<[PATH := FCheckpoint (checkpoint_dict e2 s2)]> files) in
  events (tail d1) = events (tail d2) /\ result (tail d1) = result (tail d2).
Proof.
  intros Ht tail d1 d2.
  assert (Hload : forall e s,
            load_checkpoint st (Some (<[PATH := FCheckpoint (checkpoint_dict e s)]> files)) =
            ([EvTorchLoad], Some (<[PATH := FCheckpoint (checkpoint_dict e s)]> files),
             inr ({| model := model s; optimizer := optimizer s;
                     scheduler := scheduler s; tr_loss := tr_loss s;
                     global_step := global_step st; nb_tr_steps := nb_tr_steps st |},
                  e + 1))).
  { intros e s. unfold load_checkpoint, bind, get_dir, emit, ret. simpl.
    rewrite lookup_insert_eq. reflexivity. }
  pose (X := match files !! "pytorch_model.bin" with
              | Some (FModel m) =>
                  if do_eval args && is_main_process args env
                  then (EvLoadFromOutputDir ::
                          events (evaluate args env m "test_results.txt" None),
                        result (evaluate args env m "test_results.txt" None))
                  else ([EvLoadFromOutputDir], inr tt)
              | _ => ([EvLoadFromOutputDir], inl PretrainedNotFound)
              end : list Event * (Exn + unit)).
  assert (Hmodes : forall e s st',
            events (run_modes args env n_gpu b (st', e + 1)
                      (Some (<[PATH := FCheckpoint (checkpoint_dict e s)]> files))) = X.1 /\
            result (run_modes args env n_gpu b (st', e + 1)
                      (Some (<[PATH := FCheckpoint (checkpoint_dict e s)]> files))) = X.2).
  { intros e s st'. subst X.
    unfold run_modes. rewrite Ht, events_bind, result_bind, load_trained_run.
    change (events (?ev, ?d0, ?r)) with ev. change (result (?ev, ?d0, ?r)) with r.
    change (final_dir (?ev, ?d0, ?r)) with d0.
    assert (Hread : read_file "pytorch_model.bin"
                      (Some (<[PATH := FCheckpoint (checkpoint_dict e s)]> files) : Dir)
                    = files !! "pytorch_model.bin").
    { simpl. by rewrite lookup_insert_ne. }
    rewrite Hread.
    destruct (files !! "pytorch_model.bin") as [[| |m|]|]; try done.
    cbn [model]. destruct (do_eval args && is_main_process args env); [|done].
    destruct (evaluate_dir_blind args env m "test_results.txt") as (ev & r & Hblind).
    destruct (Hblind (Some (<[PATH := FCheckpoint (checkpoint_dict e s)]> files)))
      as [-> ->].
    destruct (Hblind None) as [-> ->]. done. }
  subst tail d1 d2. cbv beta.
  rewrite (bind_inr _ _ _ _ _ _ (Hload e1 s1)), (bind_inr _ _ _ _ _ _ (Hload e2 s2)).
  change (events (?ev, ?d0, ?r)) with ev. change (result (?ev, ?d0, ?r)) with r.
  destruct (Hmodes e1 s1 {| model := model s1; optimizer := optimizer s1;
                            scheduler := scheduler s1; tr_loss := tr_loss s1;
                            global_step := global_step st;
                            nb_tr_steps := nb_tr_steps st |}) as [-> ->].
  destruct (Hmodes e2 s2 {| model := model s2; optimizer := optimizer s2;
                            scheduler := scheduler s2; tr_loss := tr_loss s2;
                            global_step := global_step st;
                            nb_tr_steps := nb_tr_steps st |}) as [-> ->].
  done.
Qed.

(** X16: an evaluation-only run makes no use of what the checkpoint holds.
    With a checkpoint written by this program in the output directory, the
    run loads it, and its trace and its result are the same whatever the
    epoch and the states in the checkpoint: the model that is evaluated is
    the one read back from the output directory. *)
Theorem evaluation_only_ignores_checkpoint_content
    args env (files : gmap string File) e1 s1 e2 s2 :
  do_train args = false ->
  events (main args env (Some (<[PATH := FCheckpoint (checkpoint_dict e1 s1)]> files))) =
  events (main args env (Some (<[PATH := FCheckpoint (checkpoint_dict e2 s2)]> files))) /\
  result (main args env (Some (<[PATH := FCheckpoint (checkpoint_dict e1 s1)]> files))) =
  result (main args env (Some (<[PATH := FCheckpoint (checkpoint_dict e2 s2)]> files))).
Proof.
  intros Ht.
  assert (Hpf : exists (ev : list Event) r, forall e s,
            preflight args (Some (<[PATH := FCheckpoint (checkpoint_dict e s)]> files) : Dir)
            = (ev, Some (<[PATH := FCheckpoint (checkpoint_dict e s)]> files), r)).
  { destruct (gradient_accumulation_steps args <? 1) eqn:Hk;
      [|destruct (negb (do_eval args)) eqn:He;
        [|destruct (negb (in_processors (lower (task_name args)))) eqn:Htask]];
      eexists _, _; intros e s; rewrite preflight_unfold; cbv zeta;
      rewrite ?Hk, ?Ht, ?He, ?Htask; simpl; rewrite ?andb_false_r; reflexivity. }
  destruct Hpf as (ev & r & Hpf).
  destruct (setup_device_blind args env) as (evs & n_gpu & Hs).
  unfold main.
  rewrite (bind_inr _ _ _ _ _ _ (Hs _)), (bind_inr _ _ _ _ _ _ (Hs _)).
  change (events (?ev0, ?d0, ?r0)) with ev0. change (result (?ev0, ?d0, ?r0)) with r0.
  destruct r as [err|b].
  { rewrite (bind_inl _ _ _ _ _ _ (Hpf e1 s1)), (bind_inl _ _ _ _ _ _ (Hpf e2 s2)).
    done. }
  rewrite (bind_inr _ _ _ _ _ _ (Hpf e1 s1)), (bind_inr _ _ _ _ _ _ (Hpf e2 s2)).
  change (events (?ev0, ?d0, ?r0)) with ev0. change (result (?ev0, ?d0, ?r0)) with r0.
  destruct (prepare_blind args env b) as (evp & rp & Hp).
  destruct rp as [err|st].
  { rewrite (bind_inl _ _ _ _ _ _ (Hp _)), (bind_inl _ _ _ _ _ _ (Hp _)). done. }
  rewrite (bind_inr _ _ _ _ _ _ (Hp _)), (bind_inr _ _ _ _ _ _ (Hp _)).
  change (events (?ev0, ?d0, ?r0)) with ev0. change (result (?ev0, ?d0, ?r0)) with r0.
  destruct (eval_only_tail_same args env n_gpu b st files e1 s1 e2 s2 Ht) as [He Hr].
  cbv zeta in He, Hr. split; [do 3 f_equal; exact He|exact Hr].
Qed.

End Run.

Import Samples.

Lemma start_up_checks_pass_iff_witness :
  exists b,
    result (preflight (sample_args false true false "test" (-1) 32 1)
              dir_with_checkpoint) = inr b.
Proof.
  apply (proj1 (start_up_checks_pass_iff
                  (sample_args false true false "test" (-1) 32 1)
                  dir_with_checkpoint)).
  split_and!; [simpl; lia|reflexivity..].
Defined.


Lemma unknown_model_type_is_a_key_error_witness :
  main {| model_type := "gpt"; model_arch := "original";
          task_name := "punctuation_prediction"; do_train := true; do_eval := true;
          eval_on := "test"; train_batch_size := 32; eval_every_epoch := false;
          num_train_epochs := 3; no_cuda := false; local_rank := -1;
          gradient_accumulation_steps := 1; fp16 := false |}
       (sample_env 2 0) None =
    ([EvQueryDevice] ++ [EvSeed; EvMakeDirs], Some ∅, inl (UnknownModelType "gpt")).
Proof.
  apply (unknown_model_type_is_a_key_error
           {| model_type := "gpt"; model_arch := "original";
              task_name := "punctuation_prediction"; do_train := true; do_eval := true;
              eval_on := "test"; train_batch_size := 32; eval_every_epoch := false;
              num_train_epochs := 3; no_cuda := false; local_rank := -1;
              gradient_accumulation_steps := 1; fp16 := false |}
           (sample_env 2 0) None 32 [EvSeed; EvMakeDirs] (Some ∅));
    reflexivity.
Defined.

Lemma one_barrier_per_distributed_process_witness :
  count is_barrier
    (events (prepare (sample_args true true false "test" 1 32 1) (sample_env 2 1) 32 None))
  = 1%nat.
Proof.
  apply (one_barrier_per_distributed_process
           (sample_args true true false "test" 1 32 1) (sample_env 2 1) 32 None
           {| model := 0%nat; optimizer := 0%nat; scheduler := 0%nat; tr_loss := tt;
              global_step := 0; nb_tr_steps := 0 |}).
  reflexivity.
Defined.

Lemma no_epoch_left_still_saves_the_model_witness :
  exists d',
    train (sample_args true true false "test" (-1) 32 1) (sample_env 2 0) 1 32 3
      fresh_state None =
      ([EvConvertFeatures "train"; EvTrainDataLoader 32;
        EvSavePretrained; EvWriteModelConfig], d', inr fresh_state) /\
    read_file "pytorch_model.bin" d' = Some (FModel (model fresh_state)) /\
    read_file PATH d' = read_file PATH None.
Proof.
  apply (no_epoch_left_still_saves_the_model
           (sample_args true true false "test" (-1) 32 1) (sample_env 2 0) 1 32 3
           fresh_state None).
  simpl. lia.
Defined.

Lemma completed_training_counts_witness :
  1 <= 2 /\
  global_step
    {| model := 3%nat; optimizer := 3%nat; scheduler := 3%nat; tr_loss := tt;
       global_step := 3; nb_tr_steps := 3 |} =
  global_step fresh_state +
  sum_over (fun e => Z.of_nat (length (train_dataloader (sample_env 3 0) 16 e)) / 2)
    (seqZ 0 (3 - 0)).
Proof.
  split; [lia|].
  pose (r := train (sample_args true true false "test" (-1) 32 2) (sample_env 3 0)
               1 16 0 fresh_state None).
  assert (Hr : r = (events r, final_dir r,
                    inr {| model := 3%nat; optimizer := 3%nat; scheduler := 3%nat;
                           tr_loss := tt; global_step := 3; nb_tr_steps := 3 |}))
    by (vm_compute; reflexivity).
  exact (proj1 (proj2 (proj2 (completed_training_counts
                                (sample_args true true false "test" (-1) 32 2)
                                (sample_env 3 0) 1 16 0 fresh_state None _ _ _
                                ltac:(simpl; lia) Hr)))).
Defined.

Lemma train_data_loader_never_gets_batch_size_zero_witness :
  16 <> 0 /\
  main (sample_args true true false "test" (-1) 2 4) (sample_env 2 0) None =
    (events (setup_device (sample_args true true false "test" (-1) 2 4)
               (sample_env 2 0) None) ++ [EvSeed; EvMakeDirs] ++
     [EvFromPretrained; EvReadExamples "train"], Some ∅, inl ZeroDivision).
Proof.
  split.
  - apply (proj1 train_data_loader_never_gets_batch_size_zero
             (sample_args true true false "test" (-1) 32 2) (sample_env 2 0) None 16).
    vm_compute. do 6 apply list_elem_of_further. apply list_elem_of_here.
  - apply (proj2 train_data_loader_never_gets_batch_size_zero
             (sample_args true true false "test" (-1) 2 4) (sample_env 2 0) None);
      reflexivity.
Defined.

Lemma evaluation_only_ignores_checkpoint_content_witness :
  result (main (sample_args false true false "test" (-1) 32 1) (sample_env 2 0)
            (Some (<[PATH := FCheckpoint (checkpoint_dict 0 fresh_state)]>
                   (<["pytorch_model.bin" := FModel 5%nat]> ∅)))) =
  result (main (sample_args false true false "test" (-1) 32 1) (sample_env 2 0)
            (Some (<[PATH := FCheckpoint
                       (checkpoint_dict 2
                          {| model := 9%nat; optimizer := 9%nat; scheduler := 9%nat;
                             tr_loss := tt; global_step := 9; nb_tr_steps := 4 |})]>
                   (<["pytorch_model.bin" := FModel 5%nat]> ∅)))).
Proof.
  apply (evaluation_only_ignores_checkpoint_content
           (sample_args false true false "test" (-1) 32 1) (sample_env 2 0)
           (<["pytorch_model.bin" := FModel 5%nat]> ∅) 0 fresh_state 2
           {| model := 9%nat; optimizer := 9%nat; scheduler := 9%nat;
              tr_loss := tt; global_step := 9; nb_tr_steps := 4 |}).
  reflexivity.
Defined.

End RunFacts.
